(** * simple-http-server: request framing, parsing and file dispatch

    A shallow embedding of [httpserver/HTTPConnectionHandler.py] and
    [httpserver/HTTPServer.py].  Python [str] values are sequences of code
    points, [bytes] values are sequences of octets, the connection object is
    an explicit state threaded through a small state-and-exception monad, and
    the socket, the file system and the MIME table are data of the
    environment. *)

From Stdlib Require Import String Ascii Init.Byte Strings.Byte Numbers.DecimalString.
From Stdlib Require Import List NArith Arith Bool Lia.
Import ListNotations.

Set Implicit Arguments.

(* ================================================================== *)
(** ** Python strings *)

Module Pystr.

(** A Python [str] is a sequence of Unicode code points. *)
Definition char := N.
Definition str := list char.

(** A literal of the source, written with a Rocq string (ASCII only). *)
Definition lit (s : string) : str := map N_of_ascii (list_ascii_of_string s).

(** [a == b] *)
Fixpoint eqb (a b : str) : bool :=
  match a, b with
  | [], [] => true
  | x :: a', y :: b' => N.eqb x y && eqb a' b'
  | _, _ => false
  end.

(** [s.startswith(prefix)] *)
Fixpoint startswith (s prefix : str) {struct prefix} : bool :=
  match prefix, s with
  | [], _ => true
  | p :: prefix', c :: s' => N.eqb c p && startswith s' prefix'
  | _ :: _, [] => false
  end.

(** [s.endswith(suffix)] *)
Definition endswith (s suffix : str) : bool := startswith (rev s) (rev suffix).

(** [s.find(sub)]: the lowest index at which [sub] occurs, if any. *)
Fixpoint find (s sub : str) {struct s} : option nat :=
  if startswith s sub then Some 0
  else match s with
       | [] => None
       | _ :: s' => option_map S (find s' sub)
       end.

(** [sub in s] *)
Definition contains (s sub : str) : bool :=
  match find s sub with Some _ => true | None => false end.

(** [s.split(sep)] for a non-empty [sep]: cut at each occurrence found
    scanning from the left, resuming after the separator.  Every cut consumes
    at least one character, so [length s] rounds are always enough. *)
Fixpoint split_rounds (n : nat) (s sep : str) : list str :=
  match n with
  | O => [s]
  | S n' =>
      match find s sep with
      | None => [s]
      | Some i => firstn i s :: split_rounds n' (skipn (i + length sep) s) sep
      end
  end.

Definition split (s sep : str) : list str := split_rounds (length s) s sep.

(** [sep.join(parts)] *)
Fixpoint join (sep : str) (parts : list str) : str :=
  match parts with
  | [] => []
  | [p] => p
  | p :: rest => p ++ sep ++ join sep rest
  end.

(** [str(n)] for a non-negative [int]. *)
Definition of_nat (n : nat) : str := lit (NilEmpty.string_of_uint (Nat.to_uint n)).

(** Python values that reach an f-string in the source, and [str(v)]. *)
Inductive value :=
| VNone
| VInt (n : nat)
| VStr (s : str).

Definition format (v : value) : str :=
  match v with
  | VNone => lit "None"
  | VInt n => of_nat n
  | VStr s => s
  end.

(** A [dict] with [str] keys, in insertion order: assigning to a key already
    present replaces its value in place, a new key goes last. *)
Definition dict (V : Type) := list (str * V).

Fixpoint dict_get {V} (d : dict V) (k : str) : option V :=
  match d with
  | [] => None
  | (k', v) :: d' => if eqb k' k then Some v else dict_get d' k
  end.

Fixpoint dict_set {V} (d : dict V) (k : str) (v : V) : dict V :=
  match d with
  | [] => [(k, v)]
  | (k', v') :: d' => if eqb k' k then (k', v) :: d' else (k', v') :: dict_set d' k v
  end.

(** [k in d] *)
Definition dict_mem {V} (d : dict V) (k : str) : bool :=
  match dict_get d k with Some _ => true | None => false end.

End Pystr.

(* ================================================================== *)
(** ** [bytes.decode('utf-8')] *)

Module Utf8.
Import Pystr.

Definition bytes := list byte.

Definition in_range (lo hi b : N) : bool := (N.leb lo b && N.leb b hi)%bool.
Definition cont (b : N) : bool := in_range 128 191 b.
Definition low6 (b : N) : N := N.land b 63.

(** The strict decoder: shortest forms only, no surrogates, nothing above
    U+10FFFF; a sequence cut short is an error like any other. *)
Fixpoint decode_points (bs : list N) : option str :=
  match bs with
  | [] => Some []
  | b0 :: r0 =>
      if N.ltb b0 128 then option_map (cons b0) (decode_points r0)
      else if in_range 194 223 b0 then
        match r0 with
        | b1 :: r1 =>
            if cont b1
            then option_map (cons (N.shiftl (N.land b0 31) 6 + low6 b1)%N)
                            (decode_points r1)
            else None
        | _ => None
        end
      else if in_range 224 239 b0 then
        match r0 with
        | b1 :: b2 :: r2 =>
            if in_range (if N.eqb b0 224 then 160 else 128)
                        (if N.eqb b0 237 then 159 else 191) b1 && cont b2
            then option_map
                   (cons (N.shiftl (N.land b0 15) 12 + N.shiftl (low6 b1) 6
                          + low6 b2)%N)
                   (decode_points r2)
            else None
        | _ => None
        end
      else if in_range 240 244 b0 then
        match r0 with
        | b1 :: b2 :: b3 :: r3 =>
            if in_range (if N.eqb b0 240 then 144 else 128)
                        (if N.eqb b0 244 then 143 else 191) b1
               && cont b2 && cont b3
            then option_map
                   (cons (N.shiftl (N.land b0 7) 18 + N.shiftl (low6 b1) 12
                          + N.shiftl (low6 b2) 6 + low6 b3)%N)
                   (decode_points r3)
            else None
        | _ => None
        end
      else None
  end.

Definition decode (b : bytes) : option str := decode_points (map Byte.to_N b).

End Utf8.

(* ================================================================== *)
(** ** [os.path] on POSIX *)

Module Posixpath.
Import Pystr.

Definition sep : str := lit "/".

(** [os.path.join(a, b)] *)
Definition join2 (a b : str) : str :=
  if startswith b sep then b
  else if (eqb a [] || endswith a sep)%bool then a ++ b
  else a ++ sep ++ b.

(** One round of the loop of [normpath]; [new_comps] is kept as a stack, its
    last element first. *)
Definition norm_step (initial_slashes : nat) (new_comps : list str) (comp : str)
  : list str :=
  if (eqb comp [] || eqb comp (lit "."))%bool then new_comps
  else if (negb (eqb comp (lit ".."))
           || (Nat.eqb initial_slashes 0 && match new_comps with [] => true | _ => false end)
           || match new_comps with top :: _ => eqb top (lit "..") | [] => false end)%bool
       then comp :: new_comps
       else match new_comps with
            | _ :: below => below
            | [] => new_comps
            end.

(** [os.path.normpath(path)] *)
Definition normpath (path : str) : str :=
  if eqb path [] then lit "."
  else
    let initial_slashes :=
      if startswith path sep then
        if (startswith path (sep ++ sep) && negb (startswith path (sep ++ sep ++ sep)))%bool
        then 2 else 1
      else 0 in
    let comps := split path sep in
    let new_comps := rev (fold_left (norm_step initial_slashes) comps []) in
    let path' := Pystr.join sep new_comps in
    let path' := concat (repeat sep initial_slashes) ++ path' in
    if eqb path' [] then lit "." else path'.

(** [os.path.abspath(path)], with the working directory [cwd] of the process. *)
Definition abspath (cwd path : str) : str :=
  if startswith path sep then normpath path else normpath (join2 cwd path).

End Posixpath.

(* ================================================================== *)
(** ** Exceptions and the state the handler threads *)

Module Effects.
Import Pystr.

Inductive exn :=
| BadRequestError (msg : str)
| RecvTimeoutError
| UnicodeDecodeError
| KeyError
| AttributeError (name : str)
| AssertionError (msg : str)
| FileNotFoundError
| IsADirectoryError.

Inductive outcome (A : Type) :=
| Return (a : A)
| Raise (e : exn).
Arguments Return {A} a.
Arguments Raise {A} e.

(** A computation over a state [S] that returns or raises. *)
Definition M (S A : Type) := S -> outcome A * S.

Definition ret {S A} (a : A) : M S A := fun s => (Return a, s).
Definition raise {S A} (e : exn) : M S A := fun s => (Raise e, s).
Definition bind {S A B} (m : M S A) (k : A -> M S B) : M S B :=
  fun s => match m s with
           | (Return a, s') => k a s'
           | (Raise e, s') => (Raise e, s')
           end.
Definition lift {S A} (o : outcome A) : M S A := fun s => (o, s).

(** [assert cond, msg] *)
Definition assert {S} (cond : bool) (msg : str) : M S unit :=
  if cond then ret tt else raise (AssertionError msg).

Declare Scope py_scope.
Delimit Scope py_scope with py.
Notation "x <- m ;; k" := (bind m (fun x => k))
  (at level 61, m at next level, right associativity) : py_scope.
Notation "m ;;; k" := (bind m (fun _ => k))
  (at level 61, right associativity) : py_scope.

End Effects.

(* ================================================================== *)
(** ** The operating system as the handler sees it *)

Module Os.
Import Pystr Utf8 Effects.

(** A file-system entry.  [st_size] is what [os.path.getsize] answers when
    the headers are built and [content] what is read once the file is opened
    for sending; the two agree unless the file changed in between.  [mtime]
    is the modification time as [get_last_modified_formatted_string] renders
    it. *)
Inductive node :=
| File (st_size : nat) (mtime : str) (content : bytes)
| Dir (st_size : nat) (mtime : str).

Record t := {
  cwd : str;                        (* os.getcwd() *)
  fs : dict node;                   (* keyed by normalized absolute path *)
  guess_type : str -> option str    (* mimetypes.guess_type(p)[0] *)
}.

Definition exists_ (os : t) (p : str) : bool := dict_mem (fs os) p.

Definition getsize (os : t) (p : str) : outcome nat :=
  match dict_get (fs os) p with
  | Some (File n _ _) | Some (Dir n _) => Return n
  | None => Raise FileNotFoundError
  end.

Definition get_last_modified_formatted_string (os : t) (p : str) : outcome str :=
  match dict_get (fs os) p with
  | Some (File _ m _) | Some (Dir _ m) => Return m
  | None => Raise FileNotFoundError
  end.

(** [open(p, 'rb')] followed by reading to the end. *)
Definition open_rb (os : t) (p : str) : outcome bytes :=
  match dict_get (fs os) p with
  | Some (File _ _ content) => Return content
  | Some (Dir _ _) => Raise IsADirectoryError
  | None => Raise FileNotFoundError
  end.

End Os.

(* ================================================================== *)
(** ** [HTTPConnectionHandler.py] *)

Module HTTPRequest.
Import Pystr.

Record t := {
  command : str;
  path : str;
  headers : dict str
}.

Definition is_connection_keep_alive (self : t) : bool :=
  dict_mem (headers self) (lit "Connection")
  && match dict_get (headers self) (lit "Connection") with
     | Some v => eqb v (lit "keep-alive")
     | None => false
     end.

End HTTPRequest.

Module HTTPResponse.
Import Pystr Effects.

Record t := {
  code : nat;
  headers : option (dict value)     (* [headers=None] by default *)
}.

Definition CRLF : str := [13; 10]%N.

Definition CODE_DESCRIPTION : list (nat * str) :=
  [ (200, lit "OK"); (400, lit "Bad Request"); (404, lit "Not Found") ].

Fixpoint description (table : list (nat * str)) (c : nat) : outcome str :=
  match table with
  | [] => Raise KeyError
  | (c', d) :: table' => if Nat.eqb c' c then Return d else description table' c
  end.

Definition header_line (kv : str * value) : str :=
  fst kv ++ lit ": " ++ format (snd kv).

Definition formatted_string (self : t) : outcome str :=
  match description CODE_DESCRIPTION (code self) with
  | Raise e => Raise e
  | Return d =>
      let response_lines :=
        [ lit "HTTP/1.1 " ++ of_nat (code self) ++ lit " " ++ d;
          lit "Server: Too-simple-http-server" ] in
      match headers self with
      | None => Raise (AttributeError (lit "items"))
      | Some hs =>
          let response_lines := response_lines ++ map header_line hs in
          Return (join CRLF response_lines ++ CRLF ++ CRLF)
      end
  end.

Definition client_error_400 : t :=
  {| code := 400; headers := Some [ (lit "Connection", VStr (lit "close")) ] |}.

Definition not_found_404 : t :=
  {| code := 404; headers := Some [ (lit "Connection", VStr (lit "close")) ] |}.

End HTTPResponse.

Module HTTPConnectionHandler.
Import Pystr Utf8 Effects.

(** What one [connection.recv(buffer_size)] gives: some octets, or nothing
    within [recv_timeout].  A peer that has closed gives [b''], which is also
    what an exhausted script gives. *)
Inductive recv_result :=
| Chunk (data : bytes)
| Stall.

(** What the peer observes, in order. *)
Inductive event :=
| SendAll (text : str)        (* connection.sendall(bytes(text, 'utf-8')) *)
| SendFile (data : bytes)     (* connection.sendfile(f) *)
| Close.                      (* connection.close() *)

Record socket := {
  incoming : list recv_result;
  outgoing : list event
}.

Record t := {
  connection : socket;
  unprocessed_data : str
}.

Definition CRLF : str := [13; 10]%N.
Definition END_OF_REQUEST : str := [13; 10; 13; 10]%N.
Definition buffer_size : nat := 4096.

(** [HTTPConnectionHandler(connection, client_address)] *)
Definition init (connection : socket) : t :=
  {| connection := connection; unprocessed_data := [] |}.

Definition emit (e : event) (self : t) : t :=
  {| connection := {| incoming := incoming (connection self);
                      outgoing := outgoing (connection self) ++ [e] |};
     unprocessed_data := unprocessed_data self |}.

(** The header loop of [__parse_request]. *)
Fixpoint parse_headers (lines : list str) (headers : dict str)
  : outcome (dict str) :=
  match lines with
  | [] => Return headers
  | line :: lines' =>
      match split line (lit ": ") with
      | [key; value] => parse_headers lines' (dict_set headers key value)
      | _ => Raise (BadRequestError (lit "Malformed key-value header: " ++ line))
      end
  end.

Definition required_keys : list str := [ lit "Host" ].

Definition parse_request (request_string : str) : outcome HTTPRequest.t :=
  let lines := split request_string CRLF in
  let headline := hd [] lines in
  match split headline (lit " ") with
  | [command; resource_path; http_version] =>
      if negb (eqb command (lit "GET")) then
        Raise (BadRequestError (lit "Only GET is supported: " ++ command))
      else if negb (eqb http_version (lit "HTTP/1.1")) then
        Raise (BadRequestError (lit "Only HTTP/1 is supported: " ++ http_version))
      else
        match parse_headers (tl lines) [] with
        | Raise e => Raise e
        | Return headers =>
            if length (filter (dict_mem headers) required_keys)
               <? length required_keys
            then Raise (BadRequestError
                          (lit "Required headers: "
                           ++ join (lit ", ")
                                (filter (fun k => negb (dict_mem headers k))
                                        required_keys)))
            else Return {| HTTPRequest.command := command;
                           HTTPRequest.path := resource_path;
                           HTTPRequest.headers := headers |}
        end
  | _ => Raise (BadRequestError (lit "Headline must have 3 parts: " ++ headline))
  end.

(** The cut made when the terminator is in the buffer: the request string
    and what stays buffered. *)
Definition cut_request (unprocessed_data : str) : option (str * str) :=
  match find unprocessed_data END_OF_REQUEST with
  | Some end_of_request_index =>
      Some (firstn end_of_request_index unprocessed_data,
            skipn (end_of_request_index + length END_OF_REQUEST) unprocessed_data)
  | None => None
  end.

(** [__detect_request_from_socket]: the loop either cuts a request out of
    the buffer or performs one more [recv]. *)
Fixpoint detect_request (incoming : list recv_result) (unprocessed_data : str)
  {struct incoming}
  : outcome (option HTTPRequest.t) * list recv_result * str :=
  match cut_request unprocessed_data with
  | Some (request_string, rest) =>
      (match parse_request request_string with
       | Return r => Return (Some r)
       | Raise e => Raise e
       end, incoming, rest)
  | None =>
      match incoming with
      | [] => (Return None, [], unprocessed_data)
      | Stall :: incoming' => (Raise RecvTimeoutError, incoming', unprocessed_data)
      | Chunk raw :: incoming' =>
          match decode raw with
          | None => (Raise UnicodeDecodeError, incoming', unprocessed_data)
          | Some [] => (Return None, incoming', unprocessed_data)
          | Some data => detect_request incoming' (unprocessed_data ++ data)
          end
      end
  end.

Definition detect_request_from_socket : M t (option HTTPRequest.t) :=
  fun self =>
    let '(r, incoming', unprocessed') :=
      detect_request (incoming (connection self)) (unprocessed_data self) in
    (r, {| connection := {| incoming := incoming';
                            outgoing := outgoing (connection self) |};
           unprocessed_data := unprocessed' |}).

Definition get_request : M t (option HTTPRequest.t) := detect_request_from_socket.

Definition send_response (response : HTTPResponse.t) : M t unit :=
  fun self =>
    match HTTPResponse.formatted_string response with
    | Raise e => (Raise e, self)
    | Return response_string => (Return tt, emit (SendAll response_string) self)
    end.

Definition send_file (os : Os.t) (file_path : str) : M t nat :=
  fun self =>
    match Os.open_rb os file_path with
    | Raise e => (Raise e, self)
    | Return content => (Return (length content), emit (SendFile content) self)
    end.

Definition close : M t unit := fun self => (Return tt, emit Close self).

End HTTPConnectionHandler.

(* ================================================================== *)
(** ** [HTTPServer.py] *)

Module HTTPServer.
Import Pystr Utf8 Effects.
Import HTTPConnectionHandler.
Local Open Scope py_scope.

Record t := {
  serve_docroot : option str;       (* [None] until [serve] is called *)
  serve_config : dict str
}.

(** [serve(docroot, serve_config)] *)
Definition serve (docroot : str) (serve_config : dict str) : t :=
  {| serve_docroot := Some docroot; serve_config := serve_config |}.

Definition get_index_html_path (self : t) : str :=
  Posixpath.join2 (lit "/")
    (match dict_get (serve_config self) (lit "index") with
     | Some p => p
     | None => lit "index.html"
     end).

Definition get_abspath_relative_to_docroot (os : Os.t) (self : t) (path : str)
  : outcome str :=
  match serve_docroot self with
  | None => Raise (AssertionError (lit "Must setup `serve_docroot` first."))
  | Some docroot =>
      Return (Posixpath.abspath (Os.cwd os) (Posixpath.join2 docroot path))
  end.

(** [http_connection.send_body(...)]: the handler class has no such
    attribute, so looking it up raises before any argument is evaluated. *)
Definition send_body : M HTTPConnectionHandler.t unit :=
  raise (AttributeError (lit "send_body")).

Definition serve_file (os : Os.t) (self : t) (request : HTTPRequest.t)
  : M HTTPConnectionHandler.t unit :=
  let requested_path :=
    if eqb (HTTPRequest.path request) (lit "/")
    then get_index_html_path self
    else HTTPRequest.path request in
  let requested_path :=
    if startswith requested_path (lit "/") then skipn 1 requested_path
    else requested_path in
  abs_requested_path <- lift (get_abspath_relative_to_docroot os self requested_path) ;;
  (* [serve_docroot] is set here, or the assertion above has raised *)
  let abs_docroot_path :=
    Posixpath.abspath (Os.cwd os)
      (match serve_docroot self with Some d => d | None => [] end) in
  (* Won't serve out of docroot *)
  if negb (startswith abs_requested_path abs_docroot_path) then
    if dict_mem (serve_config self) (lit "400") then
      send_response HTTPResponse.client_error_400 ;;;
      send_body
    else
      send_response HTTPResponse.client_error_400
  (* File not exists *)
  else if negb (Os.exists_ os abs_requested_path) then
    if dict_mem (serve_config self) (lit "404") then
      send_response HTTPResponse.not_found_404 ;;;
      send_body
    else
      send_response HTTPResponse.not_found_404
  else
    let mimetype := Os.guess_type os abs_requested_path in
    file_size <- lift (Os.getsize os abs_requested_path) ;;
    last_modified_time <-
      lift (Os.get_last_modified_formatted_string os abs_requested_path) ;;
    let response_headers :=
      [ (lit "Content-Type",
         match mimetype with Some m => VStr m | None => VNone end);
        (lit "Content-Length", VInt file_size);
        (lit "Last-Modified", VStr last_modified_time) ] in
    send_response {| HTTPResponse.code := 200;
                     HTTPResponse.headers := Some response_headers |} ;;;
    n_bytes_sent <- send_file os abs_requested_path ;;
    assert (Nat.eqb n_bytes_sent file_size) (lit "Incomplete file sent.").

(** The [while True] loop of [handle_tcp_connection].  Every round that does
    not leave the loop removes a terminator from the pending input, so the
    rounds are bounded; [None] means the bound given was too small. *)
Fixpoint serve_requests (rounds : nat) (os : Os.t) (self : t)
  (http_connection : HTTPConnectionHandler.t)
  : option (outcome unit * HTTPConnectionHandler.t) :=
  match rounds with
  | O => None
  | S rounds' =>
      match get_request http_connection with
      | (Raise e, c) => Some (Raise e, c)
      | (Return None, c) => Some (Return tt, c)
      | (Return (Some request), c) =>
          match serve_file os self request c with
          | (Raise e, c') => Some (Raise e, c')
          | (Return _, c') =>
              if negb (HTTPRequest.is_connection_keep_alive request)
              then Some (Return tt, c')
              else serve_requests rounds' os self c'
          end
      end
  end.

(** Octets and characters still to be consumed on a connection. *)
Definition pending_of (r : recv_result) : nat :=
  match r with
  | Chunk raw => length raw
  | Stall => 0
  end.

Definition pending (c : HTTPConnectionHandler.t) : nat :=
  length (unprocessed_data c)
  + list_sum (map pending_of (incoming (connection c))).

(** The [except] clauses and the [finally] of [handle_tcp_connection],
    applied to the way the loop ended. *)
Definition handle_exit (r : outcome unit) : M HTTPConnectionHandler.t unit :=
  fun c =>
    let '(r', c') :=
      match r with
      | Raise RecvTimeoutError =>
          if 0 <? length (unprocessed_data c)
          then send_response HTTPResponse.client_error_400 c
          else (Return tt, c)
      | Raise (BadRequestError _) =>
          send_response HTTPResponse.client_error_400 c
      | _ => (r, c)
      end in
    let '(_, c'') := close c' in
    (r', c'').

Definition handle_tcp_connection (os : Os.t) (self : t) (connection : socket)
  : option (outcome unit * HTTPConnectionHandler.t) :=
  let http_connection := HTTPConnectionHandler.init connection in
  match serve_requests (S (pending http_connection)) os self http_connection with
  | None => None
  | Some (r, c) => Some (handle_exit r c)
  end.

End HTTPServer.

(* ================================================================== *)
(** ** [TCPServer.py] *)

Module TCPServer.

(** What the operating system does with one address that [getaddrinfo]
    proposes: [socket.socket] fails, or the socket is made and then
    [setsockopt], [bind] or [listen] fails, or all of them succeed. *)
Inductive candidate :=
| NoSocket
| NoBind
| Usable.

(** What the loop does to sockets, by the position of the address. *)
Inductive action :=
| Opened (i : nat)
| Closed (i : nat).

(** The variable [s] of [__find_socket_to_bind_and_listen]: not yet
    assigned, [None], or a socket. *)
Inductive variable :=
| Unbound
| IsNone
| Socket (i : nat).

Inductive result :=
| Listening (i : nat)          (* [return s] *)
| SystemExit (status : nat)    (* [sys.exit(1)] *)
| UnboundLocalError.           (* [s] read before any assignment *)

(** The [for] loop over the addresses, from position [i] on; [break] ends
    it at the first usable address. *)
Fixpoint try_addresses (i : nat) (addresses : list candidate) (s : variable)
  : variable * list action :=
  match addresses with
  | [] => (s, [])
  | NoSocket :: rest => try_addresses (S i) rest IsNone
  | NoBind :: rest =>
      let '(s', log) := try_addresses (S i) rest IsNone in
      (s', Opened i :: Closed i :: log)
  | Usable :: _ => (Socket i, [Opened i])
  end.

Definition find_socket_to_bind_and_listen (addresses : list candidate)
  : result * list action :=
  let '(s, log) := try_addresses 0 addresses Unbound in
  (match s with
   | Unbound => UnboundLocalError
   | IsNone => SystemExit 1
   | Socket i => Listening i
   end, log).

End TCPServer.

(* ================================================================== *)
(** ** The specification's vocabulary *)

Module Spec.
Import Pystr.

(** A header line that is exactly one key and one value around [": "]. *)
Definition key_value_line (line : str) : Prop :=
  exists key value, split line (lit ": ") = [key; value].

(** The frames the specification says are parsed: a request line of three
    space-separated tokens with method [GET] and version [HTTP/1.1], only
    key/value lines after it, and [Host] among the keys. *)
Definition request_well_formed (frame : str) : Prop :=
  let lines := split frame HTTPConnectionHandler.CRLF in
  exists method target version,
    split (hd [] lines) (lit " ") = [method; target; version]
    /\ method = lit "GET"
    /\ version = lit "HTTP/1.1"
    /\ Forall key_value_line (tl lines)
    /\ exists line value,
         In line (tl lines) /\ split line (lit ": ") = [lit "Host"; value].

(** The value on the last line that carries the key [k]. *)
Fixpoint last_header_value (lines : list str) (k : str) : option str :=
  match lines with
  | [] => None
  | line :: lines' =>
      match last_header_value lines' k with
      | Some v => Some v
      | None =>
          match split line (lit ": ") with
          | [key; value] => if eqb key k then Some value else None
          | _ => None
          end
      end
  end.

(** The absolute path [__serve_file] resolves a request to, on a server
    set up with [docroot] and [config]. *)
Definition resolved (os : Os.t) (docroot : str) (config : dict str)
  (request : HTTPRequest.t) : str :=
  let requested_path :=
    if eqb (HTTPRequest.path request) (lit "/")
    then HTTPServer.get_index_html_path (HTTPServer.serve docroot config)
    else HTTPRequest.path request in
  let requested_path :=
    if startswith requested_path (lit "/") then skipn 1 requested_path
    else requested_path in
  Posixpath.abspath (Os.cwd os) (Posixpath.join2 docroot requested_path).

(** The wire text of a response known to format. *)
Definition text_of (response : HTTPResponse.t) : str :=
  match HTTPResponse.formatted_string response with
  | Effects.Return s => s
  | Effects.Raise _ => []
  end.

(** The 200 response [__serve_file] builds for a file. *)
Definition ok_200 (mimetype : option str) (file_size : nat) (last_modified : str)
  : HTTPResponse.t :=
  {| HTTPResponse.code := 200;
     HTTPResponse.headers :=
       Some [ (lit "Content-Type",
               match mimetype with Some m => VStr m | None => VNone end);
              (lit "Content-Length", VInt file_size);
              (lit "Last-Modified", VStr last_modified) ] |}.

(** A read whose octets decode on their own to some text. *)
Definition readable (raw : Utf8.bytes) : Prop :=
  exists data, Utf8.decode raw = Some data /\ data <> [].

(** The text a sequence of reads adds to the buffer. *)
Definition decoded (reads : list Utf8.bytes) : str :=
  concat (map (fun raw => match Utf8.decode raw with
                          | Some data => data
                          | None => []
                          end) reads).

(** The events that carry a body rather than a response text. *)
Definition is_body (e : HTTPConnectionHandler.event) : Prop :=
  match e with HTTPConnectionHandler.SendFile _ => True | _ => False end.

(** Octets that are the content of a file whose absolute path starts with
    the resolved docroot. *)
Definition under_prefix (os : Os.t) (docroot : str) (data : Utf8.bytes) : Prop :=
  exists p n m,
    startswith p (Posixpath.abspath (Os.cwd os) docroot) = true
    /\ dict_get (Os.fs os) p = Some (Os.File n m data).

(** Text without a carriage return, and text without a colon. *)
Definition cr_free (s : str) : Prop := ~ In 13%N s.
Definition colon_free (s : str) : Prop := ~ In 58%N s.

(** A canonical path lies in the tree of the canonical directory [root]
    when it is [root] itself or continues it past a separator. *)
Definition inside (root p : str) : bool :=
  eqb p root
  || startswith p (if endswith root Posixpath.sep then root else root ++ Posixpath.sep).

End Spec.

(* ================================================================== *)
(** ** Sample data *)

Module Examples.
Import Pystr Utf8 Effects HTTPConnectionHandler.

Definition crlf : string := String "013" (String "010" EmptyString).

Definition octets (s : string) : bytes := list_byte_of_string s.

(** A request as a client writes it; [extra] holds further header lines,
    each ended by CRLF. *)
Definition get (target extra : string) : bytes :=
  octets ("GET " ++ target ++ " HTTP/1.1" ++ crlf ++ extra ++ "Host: x"
          ++ crlf ++ crlf)%string.

Definition keep_alive : string := ("Connection: keep-alive" ++ crlf)%string.
Definition no_more : string := EmptyString.

(** A MIME table with two extensions. *)
Definition guess (p : str) : option str :=
  if endswith p (lit ".html") then Some (lit "text/html")
  else if endswith p (lit ".txt") then Some (lit "text/plain")
  else None.

Definition stamp : str := lit "Mon, 02 Nov 26 10:00:00 ".

Definition files : dict Os.node :=
  [ (lit "/srv/www", Os.Dir 4096 stamp);
    (lit "/srv/www/index.html", Os.File 5 stamp (octets "hello"));
    (lit "/srv/www/404.html", Os.File 9 stamp (octets "not found"));
    (lit "/srv/www/data", Os.File 2 stamp (octets "xy"));
    (lit "/srv/www/img", Os.Dir 4096 stamp);
    (lit "/srv/www2", Os.Dir 4096 stamp);
    (lit "/srv/www2/secret.txt", Os.File 6 stamp (octets "secret")) ].

Definition disk : Os.t :=
  {| Os.cwd := lit "/srv"; Os.fs := files; Os.guess_type := guess |}.

(** The same tree after [index.html] was cut to three octets between the
    size query and the send. *)
Definition disk_truncated : Os.t :=
  {| Os.cwd := lit "/srv";
     Os.fs := dict_set files (lit "/srv/www/index.html")
                (Os.File 5 stamp (octets "hel"));
     Os.guess_type := guess |}.

Definition plain : HTTPServer.t := HTTPServer.serve (lit "www") [].

(** The set-up of [demo.py], on this tree. *)
Definition custom_pages : HTTPServer.t :=
  HTTPServer.serve (lit "www")
    [ (lit "400", lit "400.html"); (lit "404", lit "404.html") ].

Definition client (script : list recv_result) : socket :=
  {| incoming := script; outgoing := [] |}.

(** A handler with [script] still to come from the peer, [sent] already
    written and [buffered] received but not framed. *)
Definition state (script : list recv_result) (sent : list event) (buffered : str)
  : HTTPConnectionHandler.t :=
  {| connection := {| incoming := script; outgoing := sent |};
     unprocessed_data := buffered |}.

Definition host : dict str := [ (lit "Host", lit "x") ].

Definition host_keep_alive : dict str :=
  [ (lit "Connection", lit "keep-alive"); (lit "Host", lit "x") ].

Definition request (target : string) (headers : dict str) : HTTPRequest.t :=
  {| HTTPRequest.command := lit "GET";
     HTTPRequest.path := lit target;
     HTTPRequest.headers := headers |}.

(** A request whose target holds U+00E9, two octets on the wire. *)
Definition cafe_head : bytes := octets "GET /caf" ++ [xc3].
Definition cafe_tail : bytes :=
  [xa9] ++ octets (" HTTP/1.1" ++ crlf ++ "Host: x" ++ crlf ++ crlf)%string.


(** A request with a version the parser does not take. *)
Definition old_version : bytes :=
  octets ("GET /x HTTP/1.0" ++ crlf ++ "Host: x" ++ crlf ++ crlf)%string.

(** One request and the start of another, cut into three reads; the first
    read ends inside the terminator. *)
Definition three_reads : list bytes :=
  [ octets ("GET / HTTP/1.1" ++ crlf ++ "Host: x" ++ crlf ++ String "013" EmptyString);
    octets (String "010" "GET /next");
    octets " more" ].

End Examples.

(* ================================================================== *)
(** * Properties *)

Import Pystr Utf8 Effects.

(** ** Strings *)

Section StrFacts.

Lemma eqb_eq (a b : str) : eqb a b = true <-> a = b.
Proof.
  revert b; induction a as [|x a IH]; intros [|y b]; simpl; split;
    try congruence; try reflexivity.
  - rewrite andb_true_iff, N.eqb_eq, IH. intros [-> ->]; reflexivity.
  - intros E; injection E as -> ->. now rewrite N.eqb_refl, (proj2 (IH b)).
Qed.

Lemma eqb_refl (a : str) : eqb a a = true.
Proof. now apply eqb_eq. Qed.

Lemma eqb_neq (a b : str) : eqb a b = false <-> a <> b.
Proof.
  rewrite <- eqb_eq. destruct (eqb a b); split; congruence.
Qed.

Lemma startswith_iff (s p : str) :
  startswith s p = true <-> exists r, s = p ++ r.
Proof.
  revert s; induction p as [|c p IH]; intros s; simpl.
  - split; [exists s; reflexivity | reflexivity].
  - destruct s as [|d s]; simpl.
    + split; [discriminate | intros [r H]; discriminate].
    + rewrite andb_true_iff, N.eqb_eq, IH. split.
      * intros [-> [r ->]]. now exists r.
      * intros [r H]. injection H as -> ->. split; [reflexivity | now exists r].
Qed.

Lemma startswith_app (p r : str) : startswith (p ++ r) p = true.
Proof. apply startswith_iff. now exists r. Qed.

Lemma find_unfold (s sub : str) :
  find s sub =
  if startswith s sub then Some 0
  else match s with
       | [] => None
       | _ :: s' => option_map S (find s' sub)
       end.
Proof. destruct s; reflexivity. Qed.

(** [find] gives the first occurrence: the text splits around it and no
    earlier position starts one. *)
Lemma find_Some (s sub : str) (i : nat) :
  find s sub = Some i ->
  s = firstn i s ++ sub ++ skipn (i + length sub) s
  /\ length (firstn i s) = i
  /\ forall j, j < i -> startswith (skipn j s) sub = false.
Proof.
  revert i; induction s as [|c s IH]; intros i; rewrite find_unfold;
    destruct (startswith _ sub) eqn:E.
  - intros [= <-]. apply startswith_iff in E as [r E]. repeat split.
    + simpl. rewrite E at 1. f_equal. rewrite E. now rewrite skipn_app, skipn_all, Nat.sub_diag.
    + intros j Hj; lia.
  - discriminate.
  - intros [= <-]. apply startswith_iff in E as [r E]. repeat split.
    + simpl firstn. simpl app at 1. rewrite E at 1. f_equal.
      rewrite E. simpl Nat.add. now rewrite skipn_app, skipn_all, Nat.sub_diag.
    + intros j Hj; lia.
  - destruct (find s sub) as [i'|] eqn:F; simpl; [|discriminate].
    intros [= <-]. destruct (IH i' eq_refl) as (H1 & H2 & H3). repeat split.
    + simpl. f_equal. exact H1.
    + simpl. now rewrite H2.
    + intros [|j] Hj; [exact E | simpl; apply H3; lia].
Qed.

Lemma find_None (s sub : str) :
  find s sub = None -> forall j, startswith (skipn j s) sub = false.
Proof.
  induction s as [|c s IH]; rewrite find_unfold;
    destruct (startswith _ sub) eqn:E; try discriminate.
  - intros _ [|j]; exact E.
  - destruct (find s sub); [discriminate|]. intros _ [|j]; [exact E|].
    simpl. now apply IH.
Qed.

Lemma contains_find (s sub : str) :
  contains s sub = true <-> exists i, find s sub = Some i.
Proof.
  unfold contains. destruct (find s sub) as [i|].
  - split; [now exists i | reflexivity].
  - split; [discriminate | intros [i H]; discriminate].
Qed.

Lemma dict_get_set {V} (d : dict V) (k k' : str) (v : V) :
  dict_get (dict_set d k v) k' = if eqb k k' then Some v else dict_get d k'.
Proof.
  induction d as [|[k0 v0] d IH]; simpl.
  - reflexivity.
  - destruct (eqb k0 k) eqn:E; simpl.
    + apply eqb_eq in E; subst k0. now destruct (eqb k k').
    + destruct (eqb k0 k') eqn:E'; [|exact IH].
      apply eqb_eq in E'; subst k0. now rewrite (proj2 (eqb_neq k k')) by
        (apply eqb_neq in E; congruence).
Qed.

Lemma find_bound (s sub : str) (i : nat) :
  find s sub = Some i -> i + length sub <= length s.
Proof.
  intros H. destruct (find_Some _ _ H) as (E & L & _).
  apply (f_equal (@length _)) in E. rewrite !length_app, L in E. lia.
Qed.

Lemma startswith_app_l (s t sub : str) :
  length sub <= length s -> startswith (s ++ t) sub = startswith s sub.
Proof.
  revert s; induction sub as [|p sub IH]; intros [|c s] H; simpl in *;
    try reflexivity; try lia.
  rewrite IH by lia. reflexivity.
Qed.

(** Text appended after an occurrence does not move the first occurrence. *)
Lemma find_app (s t sub : str) (i : nat) :
  find s sub = Some i -> find (s ++ t) sub = Some i.
Proof.
  revert i; induction s as [|c s IH]; intros i H.
  - pose proof (find_bound _ _ H) as B. destruct sub; [|simpl in B; lia].
    rewrite find_unfold in H |- *. simpl in *. exact H.
  - pose proof (find_bound _ _ H) as B.
    rewrite find_unfold in H. simpl app. rewrite find_unfold.
    change (c :: s ++ t) with ((c :: s) ++ t).
    rewrite startswith_app_l by lia.
    destruct (startswith (c :: s) sub); [exact H|].
    destruct (find s sub) as [i'|] eqn:F; [|discriminate].
    now rewrite (IH i' eq_refl).
Qed.

(** The rounds given to [split] are enough, and joining the pieces gives
    the text back. *)
Lemma split_rounds_enough (sep : str) (n : nat) :
  sep <> [] ->
  forall m s, length s <= n -> length s <= m ->
  split_rounds n s sep = split_rounds m s sep.
Proof.
  intros Hsep. induction n as [|n IH]; intros [|m] s Hn Hm; simpl;
    try reflexivity.
  - destruct s; [|simpl in Hn; lia].
    rewrite find_unfold. destruct sep; [contradiction | reflexivity].
  - destruct s; [|simpl in Hm; lia].
    rewrite find_unfold. destruct sep; [contradiction | reflexivity].
  - destruct (find s sep) as [i|] eqn:F; [|reflexivity].
    pose proof (find_bound _ _ F) as B. f_equal.
    assert (0 < length sep) by (destruct sep; [contradiction | simpl; lia]).
    apply IH; rewrite length_skipn; lia.
Qed.

Lemma join_split_rounds (sep : str) (n : nat) :
  forall s, join sep (split_rounds n s sep) = s.
Proof.
  induction n as [|n IH]; intros s; simpl; [reflexivity|].
  destruct (find s sep) as [i|] eqn:F; [|reflexivity].
  destruct (find_Some _ _ F) as (E & _ & _).
  specialize (IH (skipn (i + length sep) s)).
  destruct (split_rounds n (skipn (i + length sep) s) sep) eqn:R.
  - destruct n; simpl in R; [discriminate|].
    destruct (find _ sep); discriminate.
  - change (join sep (firstn i s :: s0 :: l))
      with (firstn i s ++ sep ++ join sep (s0 :: l)).
    rewrite IH. now rewrite <- E.
Qed.

Lemma join_split (s sep : str) : join sep (split s sep) = s.
Proof. apply join_split_rounds. Qed.

End StrFacts.

(** ** The framer *)

Section Framer.
Import HTTPConnectionHandler.

Lemma detect_request_unfold (incoming : list recv_result) (buf : str) :
  detect_request incoming buf =
  match cut_request buf with
  | Some (request_string, rest) =>
      (match parse_request request_string with
       | Return r => Return (Some r)
       | Raise e => Raise e
       end, incoming, rest)
  | None =>
      match incoming with
      | [] => (Return None, [], buf)
      | Stall :: incoming' => (Raise RecvTimeoutError, incoming', buf)
      | Chunk raw :: incoming' =>
          match decode raw with
          | None => (Raise UnicodeDecodeError, incoming', buf)
          | Some [] => (Return None, incoming', buf)
          | Some data => detect_request incoming' (buf ++ data)
          end
      end
  end.
Proof. destruct incoming; reflexivity. Qed.

(** C6: with the terminator in the buffer, one step of the framer takes no
    input from the socket, hands the parser exactly the text before the first
    terminator and keeps exactly the text after it: the buffer was
    frame ++ terminator ++ remainder, so nothing is framed twice and nothing
    is dropped. *)
Theorem get_request_cuts_at_first_terminator (self : HTTPConnectionHandler.t) :
  contains (unprocessed_data self) END_OF_REQUEST = true ->
  exists frame rest,
    unprocessed_data self = frame ++ END_OF_REQUEST ++ rest
    /\ find (unprocessed_data self) END_OF_REQUEST = Some (length frame)
    /\ (forall j, j < length frame ->
          startswith (skipn j (unprocessed_data self)) END_OF_REQUEST = false)
    /\ get_request self =
         (match parse_request frame with
          | Return r => Return (Some r)
          | Raise e => Raise e
          end,
          {| connection := connection self; unprocessed_data := rest |}).
Proof.
  intros H. apply contains_find in H as [i Hi].
  destruct (find_Some _ _ Hi) as (Hsplit & Hlen & Hfirst).
  exists (firstn i (unprocessed_data self)),
         (skipn (i + length END_OF_REQUEST) (unprocessed_data self)).
  rewrite Hlen. repeat split; try assumption.
  unfold get_request, detect_request_from_socket.
  rewrite detect_request_unfold. unfold cut_request. rewrite Hi.
  destruct self as [[inc out] buf]; reflexivity.
Qed.

Lemma cut_request_app (buf more frame rest : str) :
  cut_request buf = Some (frame, rest) ->
  cut_request (buf ++ more) = Some (frame, rest ++ more).
Proof.
  unfold cut_request.
  destruct (find buf END_OF_REQUEST) as [i|] eqn:E; [|discriminate].
  intros [= <- <-]. pose proof (find_bound _ _ E) as B.
  rewrite (find_app _ more _ E), firstn_app, skipn_app.
  replace (i - length buf) with 0 by lia.
  replace (i + length END_OF_REQUEST - length buf) with 0 by lia.
  simpl firstn. simpl skipn at 2. now rewrite app_nil_r.
Qed.

(** Chunking, seen from one call of the framer.  When the reads each decode
    on their own, the call cuts the same frame as it would from the whole
    text in the buffer, and the text left over (buffered or still to be
    read) is the same too. *)
Lemma detect_request_chunks (reads : list bytes) (later : list recv_result) :
  Forall Spec.readable reads ->
  forall buf frame rest,
    cut_request (buf ++ Spec.decoded reads) = Some (frame, rest) ->
    exists k rest',
      detect_request (map Chunk reads ++ later) buf
      = (match parse_request frame with
         | Return r => Return (Some r)
         | Raise e => Raise e
         end, map Chunk (skipn k reads) ++ later, rest')
      /\ rest' ++ Spec.decoded (skipn k reads) = rest.
Proof.
  induction 1 as [|raw reads (data & D & Hne) _ IH]; intros buf frame rest H.
  - unfold Spec.decoded in H. simpl in H. rewrite app_nil_r in H.
    exists 0, rest. simpl. rewrite detect_request_unfold, H.
    split; [reflexivity | apply app_nil_r].
  - simpl map. simpl app. rewrite detect_request_unfold.
    destruct (cut_request buf) as [[frame' rest']|] eqn:C.
    + apply (cut_request_app _ (Spec.decoded (raw :: reads))) in C.
      rewrite C in H. injection H as <- <-.
      exists 0, rest'. split; reflexivity.
    + rewrite D. destruct data as [|ch data]; [contradiction|].
      unfold Spec.decoded in H. simpl in H. rewrite D in H.
      rewrite app_assoc in H. apply IH in H as (k & rest' & H1 & H2).
      exists (S k), rest'. split; assumption.
Qed.

(** Without a terminator in the whole text, every read is consumed. *)
Lemma detect_request_chunks_none (reads : list bytes) (later : list recv_result) :
  Forall Spec.readable reads ->
  forall buf,
    cut_request (buf ++ Spec.decoded reads) = None ->
    detect_request (map Chunk reads ++ later) buf
    = detect_request later (buf ++ Spec.decoded reads).
Proof.
  induction 1 as [|raw reads (data & D & Hne) _ IH]; intros buf H.
  - unfold Spec.decoded. simpl. now rewrite app_nil_r.
  - simpl map. simpl app. rewrite detect_request_unfold.
    destruct (cut_request buf) as [[frame' rest']|] eqn:C.
    + apply (cut_request_app _ (Spec.decoded (raw :: reads))) in C. congruence.
    + rewrite D. destruct data as [|ch data]; [contradiction|].
      unfold Spec.decoded in H |- *. simpl in H |- *. rewrite D in H |- *.
      rewrite app_assoc in H |- *. now apply IH.
Qed.

(** Octets below 128 decode to themselves, so a stream of them decodes the
    same however it is cut. *)
Lemma decode_ascii (raw : bytes) :
  Forall (fun b => (Byte.to_N b < 128)%N) raw ->
  decode raw = Some (map Byte.to_N raw).
Proof.
  unfold decode. induction 1 as [|b raw Hb _ IH]; [reflexivity|].
  simpl. apply N.ltb_lt in Hb. rewrite Hb, IH. reflexivity.
Qed.

Lemma decoded_ascii (reads : list bytes) :
  Forall (Forall (fun b => (Byte.to_N b < 128)%N)) reads ->
  Spec.decoded reads = map Byte.to_N (concat reads).
Proof.
  unfold Spec.decoded. induction 1 as [|raw reads Hraw _ IH]; [reflexivity|].
  simpl. rewrite (decode_ascii Hraw), IH, map_app. reflexivity.
Qed.

Lemma ascii_readable (raw : bytes) :
  raw <> [] -> Forall (fun b => (Byte.to_N b < 128)%N) raw -> Spec.readable raw.
Proof.
  intros Hne H. exists (map Byte.to_N raw). split; [now apply decode_ascii|].
  destruct raw; [contradiction | discriminate].
Qed.

(** X6: chunking invariance where it holds: two ways of cutting the same
    stream into reads that each decode on their own (as any non-empty reads
    of octets below 128 do) give the same result of the call and leave the
    same text unconsumed. *)
Lemma framing_ignores_read_boundaries (reads reads' : list bytes) (buf : str) :
  Forall Spec.readable reads -> Forall Spec.readable reads' ->
  Spec.decoded reads = Spec.decoded reads' ->
  exists r k k' b b',
    detect_request (map Chunk reads) buf = (r, map Chunk (skipn k reads), b)
    /\ detect_request (map Chunk reads') buf = (r, map Chunk (skipn k' reads'), b')
    /\ b ++ Spec.decoded (skipn k reads) = b' ++ Spec.decoded (skipn k' reads').
Proof.
  intros R R' E.
  destruct (cut_request (buf ++ Spec.decoded reads)) as [[frame rest]|] eqn:C.
  - destruct (detect_request_chunks [] R _ C) as (k & b & H1 & H2).
    rewrite E in C.
    destruct (detect_request_chunks [] R' _ C) as (k' & b' & H1' & H2').
    rewrite !app_nil_r in H1, H1'.
    eexists _, k, k', b, b'. repeat split; [exact H1 | exact H1' | congruence].
  - pose proof (detect_request_chunks_none [] R _ C) as H1.
    rewrite E in C.
    pose proof (detect_request_chunks_none [] R' _ C) as H1'.
    rewrite !app_nil_r in H1, H1'.
    rewrite (detect_request_unfold [] _) in H1.
    rewrite (detect_request_unfold [] _) in H1'.
    rewrite C in H1'. rewrite <- E in C. rewrite C in H1.
    exists (Return None), (length reads), (length reads'), (buf ++ Spec.decoded reads),
      (buf ++ Spec.decoded reads').
    rewrite !skipn_all. repeat split; [exact H1 | exact H1' |].
    now rewrite E.
Qed.

End Framer.

(** ** The parser *)

Section Parser.
Import HTTPConnectionHandler Spec.

Lemma last_header_value_In (lines : list str) (k v : str) :
  last_header_value lines k = Some v ->
  exists line, In line lines /\ split line (lit ": ") = [k; v].
Proof.
  induction lines as [|line lines IH]; simpl; [discriminate|].
  destruct (last_header_value lines k) as [v'|].
  - intros [= ->]. destruct (IH eq_refl) as (l & Hl & E). exists l; auto.
  - destruct (split line (lit ": ")) as [|key [|value [|? ?]]] eqn:E; try discriminate.
    destruct (eqb key k) eqn:K; [|discriminate].
    intros [= ->]. apply eqb_eq in K; subst key. exists line; auto.
Qed.

Lemma In_last_header_value (lines : list str) (k : str) :
  (exists line v, In line lines /\ split line (lit ": ") = [k; v]) ->
  exists v, last_header_value lines k = Some v.
Proof.
  induction lines as [|line lines IH]; intros (l & v & Hin & E); simpl in *.
  - contradiction.
  - destruct (last_header_value lines k) as [v'|] eqn:L; [now exists v'|].
    destruct Hin as [->|Hin].
    + rewrite E, eqb_refl. now exists v.
    + destruct IH as [v' Hv']; [now exists l, v | discriminate].
Qed.

(** The header loop: it succeeds exactly on key/value lines, and a later
    line overrides an earlier one with the same key. *)
Lemma parse_headers_spec (lines : list str) :
  forall acc : dict str,
    (Forall key_value_line lines -> exists hs, parse_headers lines acc = Return hs)
    /\ (forall hs, parse_headers lines acc = Return hs ->
          Forall key_value_line lines
          /\ forall k, dict_get hs k =
                       match last_header_value lines k with
                       | Some v => Some v
                       | None => dict_get acc k
                       end)
    /\ (forall e, parse_headers lines acc = Raise e ->
          exists msg, e = BadRequestError msg).
Proof.
  induction lines as [|line lines IH]; intros acc; simpl.
  - repeat split.
    + now exists acc.
    + constructor.
    + now injection H as ->.
    + discriminate.
  - destruct (split line (lit ": ")) as [|key [|value [|x xs]]] eqn:E.
    1,2,4: repeat split; try discriminate;
      [ intros H; inversion H as [|? ? (k0 & v0 & Hk) ?]; subst; congruence
      | intros e [= <-]; eexists; reflexivity ].
    destruct (IH (dict_set acc key value)) as (IH1 & IH2 & IH3).
    repeat split.
    + intros H; inversion H; subst; auto.
    + constructor; [now exists key, value | now apply (IH2 hs)].
    + intros k. destruct (IH2 hs H) as [_ Hk]. rewrite Hk.
      destruct (last_header_value lines k); [reflexivity|].
      rewrite dict_get_set. now destruct (eqb key k).
    + exact IH3.
Qed.

Lemma required_keys_check (hs : dict str) :
  (length (filter (dict_mem hs) required_keys) <? length required_keys) = false
  <-> exists v, dict_get hs (lit "Host") = Some v.
Proof.
  unfold required_keys; simpl filter. unfold dict_mem.
  destruct (dict_get hs (lit "Host")) as [v|]; simpl; split; try discriminate.
  - now exists v.
  - reflexivity.
  - intros [v H]; discriminate.
Qed.

(** The parser raises nothing but [BadRequestError]. *)
Lemma parse_request_raises (frame : str) (e : exn) :
  parse_request frame = Raise e -> exists msg, e = BadRequestError msg.
Proof.
  unfold parse_request.
  destruct (split (hd [] (split frame CRLF)) (lit " ")) as [|c [|p [|v [|x xs]]]];
    try (intros [= <-]; eexists; reflexivity).
  destruct (negb (eqb c (lit "GET"))); [intros [= <-]; eexists; reflexivity|].
  destruct (negb (eqb v (lit "HTTP/1.1"))); [intros [= <-]; eexists; reflexivity|].
  destruct (parse_headers_spec (tl (split frame CRLF)) []) as (_ & _ & P3).
  destruct (parse_headers _ _) as [hs|e'].
  - destruct (_ <? _); [intros [= <-]; eexists; reflexivity | discriminate].
  - intros [= <-]. now apply P3.
Qed.

(** C3: [parse_request] returns a request exactly for the frames whose
    first line is three space-separated tokens with method GET and version
    HTTP/1.1, whose further lines are each one key and one value around
    ": ", and which carry the key Host; on every other frame it raises
    BadRequestError; and the request holds the method, the path token and,
    for each key, the value of the last line that carries it. *)
Theorem parse_request_accepts_exactly (frame : str) :
  ((exists request, parse_request frame = Return request)
   <-> request_well_formed frame)
  /\ ((exists request, parse_request frame = Return request)
      \/ (exists msg, parse_request frame = Raise (BadRequestError msg)))
  /\ (forall request, parse_request frame = Return request ->
        exists target,
          split (hd [] (split frame CRLF)) (lit " ")
          = [lit "GET"; target; lit "HTTP/1.1"]
          /\ HTTPRequest.command request = lit "GET"
          /\ HTTPRequest.path request = target
          /\ forall k, dict_get (HTTPRequest.headers request) k
                       = last_header_value (tl (split frame CRLF)) k).
Proof.
  unfold request_well_formed, parse_request.
  set (lines := split frame CRLF).
  destruct (split (hd [] lines) (lit " ")) as [|c [|p [|v [|x xs]]]] eqn:E.
  1,2,3,5: repeat split;
    [ intros [r H]; discriminate
    | intros (m & t & ve & H & _); discriminate
    | right; eexists; reflexivity
    | discriminate ].
  destruct (eqb c (lit "GET")) eqn:Ec; simpl negb; cbv iota.
  2: { apply eqb_neq in Ec. repeat split.
       - intros [r H]; discriminate.
       - intros (m & t & ve & [= <- <- <-] & Hm & _); contradiction.
       - right; eexists; reflexivity.
       - discriminate. }
  apply eqb_eq in Ec; subst c.
  destruct (eqb v (lit "HTTP/1.1")) eqn:Ev; simpl negb; cbv iota.
  2: { apply eqb_neq in Ev. repeat split.
       - intros [r H]; discriminate.
       - intros (m & t & ve & [= <- <- <-] & _ & Hv & _); contradiction.
       - right; eexists; reflexivity.
       - discriminate. }
  apply eqb_eq in Ev; subst v.
  destruct (parse_headers_spec (tl lines) []) as (P1 & P2 & P3).
  destruct (parse_headers (tl lines) []) as [hs|e] eqn:Eh.
  - destruct (P2 hs eq_refl) as [Hall Hget].
    destruct (length (filter (dict_mem hs) required_keys) <? length required_keys)
      eqn:Er.
    + assert (Hno : ~ exists v, dict_get hs (lit "Host") = Some v).
      { intros Hv. apply required_keys_check in Hv. congruence. }
      repeat split.
      * intros [r H]; discriminate.
      * intros (m & t & ve & _ & _ & _ & _ & Hhost). exfalso. apply Hno.
        destruct (In_last_header_value (tl lines) Hhost) as [v Hv].
        exists v. rewrite Hget, Hv. reflexivity.
      * right; eexists; reflexivity.
      * discriminate.
    + apply required_keys_check in Er as [v Hv].
      repeat split.
      * intros _. exists (lit "GET"), p, (lit "HTTP/1.1").
        repeat split; try assumption.
        rewrite Hget in Hv. simpl in Hv.
        destruct (last_header_value (tl lines) (lit "Host")) as [v'|] eqn:L;
          [|discriminate].
        destruct (last_header_value_In _ _ L) as (line & Hin & Hs).
        now exists line, v'.
      * intros _. eexists; reflexivity.
      * left; eexists; reflexivity.
      * intros request [= <-]. exists p. repeat split.
        intros k. rewrite Hget. simpl.
        now destruct (last_header_value (tl lines) k).
  - destruct (P3 e eq_refl) as [msg ->]. repeat split.
    + intros [r H]; discriminate.
    + intros (m & t & ve & _ & _ & _ & Hall & _).
      destruct (P1 Hall) as [hs Hhs]; discriminate.
    + right; eexists; reflexivity.
    + discriminate.
Qed.

End Parser.

(** ** Dispatch *)

Section Dispatch.
Import HTTPConnectionHandler HTTPServer Spec.

Variable os : Os.t.
Variables (docroot : str) (config : dict str).

Let self := serve docroot config.
Let root := Posixpath.abspath (Os.cwd os) docroot.

Lemma send_response_known (response : HTTPResponse.t) (s : str)
  (c : HTTPConnectionHandler.t) :
  HTTPResponse.formatted_string response = Return s ->
  send_response response c = (Return tt, emit (SendAll s) c).
Proof. unfold send_response. now intros ->. Qed.

Lemma formatted_400 :
  HTTPResponse.formatted_string HTTPResponse.client_error_400
  = Return (text_of HTTPResponse.client_error_400).
Proof. reflexivity. Qed.

Lemma formatted_404 :
  HTTPResponse.formatted_string HTTPResponse.not_found_404
  = Return (text_of HTTPResponse.not_found_404).
Proof. reflexivity. Qed.


(** [__serve_file] on a server that was set up, branch by branch. *)
Lemma serve_file_unfold (request : HTTPRequest.t) (c : HTTPConnectionHandler.t) :
  serve_file os self request c =
  let abs := resolved os docroot config request in
  if negb (startswith abs root) then
    (if dict_mem config (lit "400")
     then Raise (AttributeError (lit "send_body")) else Return tt,
     emit (SendAll (text_of HTTPResponse.client_error_400)) c)
  else if negb (Os.exists_ os abs) then
    (if dict_mem config (lit "404")
     then Raise (AttributeError (lit "send_body")) else Return tt,
     emit (SendAll (text_of HTTPResponse.not_found_404)) c)
  else
    match dict_get (Os.fs os) abs with
    | Some (Os.File n m content) =>
        (if Nat.eqb (length content) n then Return tt
         else Raise (AssertionError (lit "Incomplete file sent.")),
         emit (SendFile content)
           (emit (SendAll (text_of (ok_200 (Os.guess_type os abs) n m))) c))
    | Some (Os.Dir n m) =>
        (Raise IsADirectoryError,
         emit (SendAll (text_of (ok_200 (Os.guess_type os abs) n m))) c)
    | None => (Raise FileNotFoundError, c)
    end.
Proof.
  cbv beta delta [serve_file self root resolved bind lift
                  get_abspath_relative_to_docroot serve serve_docroot
                  serve_config] iota zeta.
  match goal with |- context [negb (startswith ?a ?r)] =>
    destruct (startswith a r) end; cbn [negb].
  2: destruct (dict_mem config (lit "400")); reflexivity.
  unfold Os.exists_, dict_mem, Os.getsize, Os.get_last_modified_formatted_string.
  match goal with |- context [dict_get (Os.fs os) ?a] =>
    destruct (dict_get (Os.fs os) a) as [[n m content|n m]|] eqn:E end;
    cbn [negb].
  - unfold send_file, Os.open_rb. rewrite E.
    unfold assert. destruct (Nat.eqb (length content) n); reflexivity.
  - unfold send_file, Os.open_rb. rewrite E. reflexivity.
  - destruct (match dict_get config (lit "404") with Some _ => true | None => false end);
      reflexivity.
Qed.

End Dispatch.

(** ** The session loop terminates *)

Section Termination.
Import HTTPConnectionHandler HTTPServer.

Lemma decode_points_length (n : nat) :
  forall bs s, length bs <= n -> decode_points bs = Some s -> length s <= length bs.
Proof.
  induction n as [|n IH]; intros [|b0 r0] s Hn; simpl; try (intros [= <-]; simpl; lia).
  - simpl in Hn; lia.
  - simpl in Hn.
    repeat match goal with
    | |- (if ?b then _ else _) = Some _ -> _ => destruct b
    | |- match ?l with [] => _ | _ :: _ => _ end = Some _ -> _ =>
        destruct l; simpl in Hn |- *
    | |- None = Some _ -> _ => discriminate
    | |- option_map _ (decode_points ?r) = Some _ -> _ =>
        let E := fresh "E" in
        destruct (decode_points r) as [s'|] eqn:E; simpl; [|discriminate];
        intros [= <-]; apply IH in E; simpl; lia
    end.
Qed.

Lemma decode_length (raw : bytes) (data : str) :
  decode raw = Some data -> length data <= length raw.
Proof.
  unfold decode. intros H.
  apply (@decode_points_length (length (map Byte.to_N raw))) in H; [|lia].
  now rewrite length_map in H.
Qed.

Lemma cut_request_length (buf frame rest : str) :
  cut_request buf = Some (frame, rest) ->
  length rest + 4 <= length buf.
Proof.
  unfold cut_request. destruct (find buf END_OF_REQUEST) as [i|] eqn:E; [|discriminate].
  intros [= <- <-]. destruct (find_Some _ _ E) as (H & Hl & _).
  rewrite H at 2. rewrite !length_app, Hl. simpl. lia.
Qed.

Lemma detect_request_consumes (incoming : list recv_result) :
  forall buf request incoming' buf',
    detect_request incoming buf = (Return (Some request), incoming', buf') ->
    length buf' + list_sum (map pending_of incoming') + 4
    <= length buf + list_sum (map pending_of incoming).
Proof.
  induction incoming as [|[raw|] incoming IH]; intros buf request incoming' buf';
    rewrite detect_request_unfold;
    destruct (cut_request buf) as [[frame rest]|] eqn:E;
    try (intros [= _ <- <-]; apply cut_request_length in E; simpl; lia);
    try discriminate.
  destruct (decode raw) as [[|ch data]|] eqn:D; try discriminate.
  intros H. apply IH in H. apply decode_length in D.
  rewrite length_app in H. simpl in *. lia.
Qed.

Lemma get_request_consumes (c c' : HTTPConnectionHandler.t) (request : HTTPRequest.t) :
  get_request c = (Return (Some request), c') ->
  pending c' + 4 <= pending c.
Proof.
  unfold get_request, detect_request_from_socket, pending.
  destruct (detect_request _ _) as [[r inc'] buf'] eqn:E.
  intros [= -> <-]. apply detect_request_consumes in E. simpl. lia.
Qed.

Lemma get_request_outgoing (c c' : HTTPConnectionHandler.t) r :
  get_request c = (r, c') ->
  outgoing (connection c') = outgoing (connection c).
Proof.
  unfold get_request, detect_request_from_socket.
  destruct (detect_request _ _) as [[r0 inc'] buf']. now intros [= _ <-].
Qed.

(** Dispatch only writes to the socket. *)
Lemma serve_file_input (os : Os.t) (self : HTTPServer.t) (request : HTTPRequest.t)
  (c c' : HTTPConnectionHandler.t) r :
  serve_file os self request c = (r, c') ->
  incoming (connection c') = incoming (connection c)
  /\ unprocessed_data c' = unprocessed_data c.
Proof.
  destruct self as [[docroot|] config].
  - change {| serve_docroot := Some docroot; serve_config := config |}
      with (serve docroot config).
    rewrite serve_file_unfold. cbv zeta.
    repeat match goal with
    | |- (if ?b then _ else _) = _ -> _ => destruct b
    | |- match ?x with _ => _ end = _ -> _ => destruct x
    end; intros [= _ <-]; split; reflexivity.
  - intros [= _ <-]; split; reflexivity.
Qed.

Lemma serve_file_pending (os : Os.t) (self : HTTPServer.t) (request : HTTPRequest.t)
  (c c' : HTTPConnectionHandler.t) r :
  serve_file os self request c = (r, c') -> pending c' = pending c.
Proof.
  intros H. apply serve_file_input in H as [H1 H2]. unfold pending.
  now rewrite H1, H2.
Qed.

Lemma serve_requests_enough (os : Os.t) (self : HTTPServer.t) (rounds : nat) :
  forall c, pending c < rounds ->
  exists res, serve_requests rounds os self c = Some res.
Proof.
  induction rounds as [|rounds IH]; intros c Hc; [lia|]. simpl.
  destruct (get_request c) as [[[request|]|e] c1] eqn:G; try (eexists; reflexivity).
  apply get_request_consumes in G.
  destruct (serve_file os self request c1) as [[u|e] c2] eqn:F;
    try (eexists; reflexivity).
  apply serve_file_pending in F.
  destruct (negb _); [eexists; reflexivity|]. apply IH. lia.
Qed.

Lemma serve_requests_stable (os : Os.t) (self : HTTPServer.t) (rounds : nat) :
  forall rounds' c res,
    serve_requests rounds os self c = Some res -> rounds <= rounds' ->
    serve_requests rounds' os self c = Some res.
Proof.
  induction rounds as [|rounds IH]; intros [|rounds'] c res; simpl;
    try discriminate; try lia.
  destruct (get_request c) as [[[request|]|e] c1]; auto.
  destruct (serve_file os self request c1) as [[u|e] c2]; auto.
  destruct (negb _); auto. intros H Hle. apply IH; [exact H | lia].
Qed.

(** [handle_tcp_connection] always comes to an end. *)
Lemma handle_tcp_connection_total (os : Os.t) (self : HTTPServer.t) (sock : socket) :
  exists res, handle_tcp_connection os self sock = Some res.
Proof.
  unfold handle_tcp_connection.
  destruct (@serve_requests_enough os self (S (pending (init sock))) (init sock))
    as [[r c] H]; [lia|].
  rewrite H. eexists; reflexivity.
Qed.

End Termination.

(** ** Responses *)

Section Responses.
Import HTTPConnectionHandler HTTPServer Spec.

Lemma text_of_ok_200 (mimetype : option str) (n : nat) (m : str) :
  text_of (ok_200 mimetype n m) =
  lit "HTTP/1.1 200 OK" ++ HTTPResponse.CRLF
  ++ lit "Server: Too-simple-http-server" ++ HTTPResponse.CRLF
  ++ lit "Content-Type: "
  ++ format (match mimetype with Some t => VStr t | None => VNone end)
  ++ HTTPResponse.CRLF
  ++ lit "Content-Length: " ++ of_nat n ++ HTTPResponse.CRLF
  ++ lit "Last-Modified: " ++ m ++ HTTPResponse.CRLF ++ HTTPResponse.CRLF.
Proof.
  unfold text_of, ok_200, HTTPResponse.formatted_string.
  cbn [HTTPResponse.code HTTPResponse.headers HTTPResponse.description
       HTTPResponse.CODE_DESCRIPTION Nat.eqb map app join
       HTTPResponse.header_line fst snd].
  change (of_nat 200) with (lit "200").
  change (lit "HTTP/1.1 " ++ lit "200" ++ lit " " ++ lit "OK")
    with (lit "HTTP/1.1 200 OK").
  repeat rewrite <- app_assoc. reflexivity.
Qed.

(** What dispatch writes is one response text, then at most the body. *)
Lemma serve_file_one_response (os : Os.t) (docroot : str) (config : dict str)
  (request : HTTPRequest.t) (c c' : HTTPConnectionHandler.t) r :
  serve_file os (serve docroot config) request c = (r, c') ->
  exists text body,
    outgoing (connection c') = outgoing (connection c) ++ SendAll text :: body
    /\ Forall is_body body.
Proof.
  rewrite serve_file_unfold. cbv zeta.
  destruct (negb (startswith _ _)).
  { intros [= _ <-]. eexists _, []. split; [reflexivity | constructor]. }
  unfold Os.exists_, dict_mem.
  destruct (dict_get (Os.fs os) _) as [[n m content|n m]|]; cbn [negb];
    intros [= _ <-].
  - eexists _, [SendFile content]. split.
    + simpl. rewrite <- app_assoc. reflexivity.
    + repeat constructor.
  - eexists _, []. split; [reflexivity | constructor].
  - eexists _, []. split; [reflexivity | constructor].
Qed.

(** No exception of dispatch is caught by [handle_tcp_connection]: the
    [finally] clause closes the connection and the exception goes on. *)
Lemma serve_file_exit (os : Os.t) (self : HTTPServer.t) (request : HTTPRequest.t)
  (c c' : HTTPConnectionHandler.t) r :
  serve_file os self request c = (r, c') ->
  handle_exit r c' = (r, emit Close c').
Proof.
  destruct self as [[docroot|] config].
  - change {| serve_docroot := Some docroot; serve_config := config |}
      with (serve docroot config).
    rewrite serve_file_unfold. cbv zeta.
    repeat match goal with
    | |- context [if ?b then _ else _] => destruct b
    | |- match ?x with _ => _ end = _ -> _ => destruct x
    end; intros [= <- <-]; reflexivity.
  - intros [= <- <-]; reflexivity.
Qed.

End Responses.

(** ** The session *)

Section Session.
Import HTTPConnectionHandler HTTPServer Spec.

Variable os : Os.t.

Lemma text_of_400 :
  text_of HTTPResponse.client_error_400 =
  lit "HTTP/1.1 400 Bad Request" ++ HTTPResponse.CRLF
  ++ lit "Server: Too-simple-http-server" ++ HTTPResponse.CRLF
  ++ lit "Connection: close" ++ HTTPResponse.CRLF ++ HTTPResponse.CRLF.
Proof. reflexivity. Qed.

Lemma text_of_404 :
  text_of HTTPResponse.not_found_404 =
  lit "HTTP/1.1 404 Not Found" ++ HTTPResponse.CRLF
  ++ lit "Server: Too-simple-http-server" ++ HTTPResponse.CRLF
  ++ lit "Connection: close" ++ HTTPResponse.CRLF ++ HTTPResponse.CRLF.
Proof. reflexivity. Qed.

(** C7: a read that stalls before a terminator is buffered raises the
    timeout error, whatever state the session is in, and a session whose
    loop ends in that error then writes exactly one response, the 400 text
    given here in full, and closes if text is still buffered, and only
    closes if the buffer is empty. *)
Theorem read_timeout_answer (self : HTTPServer.t) :
  let bad_request :=
    lit "HTTP/1.1 400 Bad Request" ++ HTTPResponse.CRLF
    ++ lit "Server: Too-simple-http-server" ++ HTTPResponse.CRLF
    ++ lit "Connection: close" ++ HTTPResponse.CRLF ++ HTTPResponse.CRLF in
  (forall (reads : list bytes) (later : list recv_result) (sent : list event)
          (buf : str) (rounds : nat),
      Forall readable reads ->
      cut_request (buf ++ decoded reads) = None ->
      serve_requests (S rounds) os self
        {| connection := {| incoming := map Chunk reads ++ Stall :: later;
                            outgoing := sent |};
           unprocessed_data := buf |}
      = Some (Raise RecvTimeoutError,
              {| connection := {| incoming := later; outgoing := sent |};
                 unprocessed_data := buf ++ decoded reads |}))
  /\ (forall (sock : socket) (c1 : HTTPConnectionHandler.t),
        serve_requests (S (pending (init sock))) os self (init sock)
        = Some (Raise RecvTimeoutError, c1) ->
        (unprocessed_data c1 <> [] ->
         handle_tcp_connection os self sock
         = Some (Return tt, emit Close (emit (SendAll bad_request) c1)))
        /\ (unprocessed_data c1 = [] ->
            handle_tcp_connection os self sock = Some (Return tt, emit Close c1)))
  /\ (forall (reads : list bytes) (later : list recv_result) (sent : list event),
        Forall readable reads ->
        cut_request (decoded reads) = None ->
        let sock := {| incoming := map Chunk reads ++ Stall :: later;
                       outgoing := sent |} in
        (decoded reads <> [] ->
         handle_tcp_connection os self sock
         = Some (Return tt,
                 {| connection := {| incoming := later;
                                     outgoing := sent ++ [SendAll bad_request; Close] |};
                    unprocessed_data := decoded reads |}))
        /\ (decoded reads = [] ->
            handle_tcp_connection os self sock
            = Some (Return tt,
                    {| connection := {| incoming := later;
                                        outgoing := sent ++ [Close] |};
                       unprocessed_data := decoded reads |}))).
Proof.
  intros bad_request.
  assert (A : forall reads later sent buf rounds,
             Forall readable reads ->
             cut_request (buf ++ decoded reads) = None ->
             serve_requests (S rounds) os self
               {| connection := {| incoming := map Chunk reads ++ Stall :: later;
                                   outgoing := sent |};
                  unprocessed_data := buf |}
             = Some (Raise RecvTimeoutError,
                     {| connection := {| incoming := later; outgoing := sent |};
                        unprocessed_data := buf ++ decoded reads |})).
  { intros reads later sent buf rounds R C.
    pose proof (@detect_request_chunks_none reads (Stall :: later) R buf C) as D.
    rewrite (detect_request_unfold (Stall :: later) _), C in D.
    simpl serve_requests. unfold get_request, detect_request_from_socket.
    simpl incoming. simpl unprocessed_data. rewrite D. reflexivity. }
  assert (B : forall sock c1,
             serve_requests (S (pending (init sock))) os self (init sock)
             = Some (Raise RecvTimeoutError, c1) ->
             (unprocessed_data c1 <> [] ->
              handle_tcp_connection os self sock
              = Some (Return tt, emit Close (emit (SendAll bad_request) c1)))
             /\ (unprocessed_data c1 = [] ->
                 handle_tcp_connection os self sock
                 = Some (Return tt, emit Close c1))).
  { intros sock c1 H. unfold handle_tcp_connection. rewrite H. unfold handle_exit.
    split; intros Hbuf.
    - destruct (unprocessed_data c1) eqn:E; [contradiction|]. reflexivity.
    - rewrite Hbuf. reflexivity. }
  split; [exact A|]. split; [exact B|].
  intros reads later sent R C sock.
  pose proof (A reads later sent [] (pending (init sock)) R C) as H.
  change {| connection := {| incoming := map Chunk reads ++ Stall :: later;
                             outgoing := sent |};
            unprocessed_data := [] |} with (init sock) in H.
  simpl app in H. destruct (B sock _ H) as [B1 B2]. split; intros Hd.
  - rewrite (B1 Hd). unfold emit. simpl. now rewrite <- app_assoc.
  - rewrite (B2 Hd). reflexivity.
Qed.

(** A read times out only on a [recv] that stalls while the buffer holds no
    terminator; what was buffered by then is what is still buffered. *)
Lemma detect_request_timeout (incoming : list recv_result) :
  forall buf incoming' buf',
    detect_request incoming buf = (Raise RecvTimeoutError, incoming', buf') ->
    contains buf' END_OF_REQUEST = false
    /\ exists chunks, incoming = map Chunk chunks ++ Stall :: incoming'.
Proof.
  induction incoming as [|[raw|] incoming IH]; intros buf incoming' buf';
    rewrite detect_request_unfold; unfold cut_request, contains;
    destruct (find buf END_OF_REQUEST) as [i|] eqn:E;
    try (destruct (parse_request _) as [r|e] eqn:P; [discriminate|];
         intros [= -> _ _]; apply parse_request_raises in P as [msg P];
         discriminate).
  - discriminate.
  - destruct (decode raw) as [[|ch data]|]; try discriminate.
    intros H. apply IH in H as [H1 [chunks ->]]. split; [exact H1|].
    now exists (raw :: chunks).
  - intros [= <- <-]. unfold contains. rewrite E.
    split; [reflexivity | now exists []].
Qed.

(** C9: a request keeps the connection open exactly when its headers map
    the key Connection to the string keep-alive, compared as written; with
    any other value, or without the key, the loop ends after the response to
    that request and the connection is closed. *)
Theorem keep_alive_is_exact_match (self : HTTPServer.t) (rounds : nat)
  (c c1 c2 : HTTPConnectionHandler.t) (request : HTTPRequest.t) r :
  get_request c = (Return (Some request), c1) ->
  serve_file os self request c1 = (r, c2) ->
  (HTTPRequest.is_connection_keep_alive request = true
   <-> dict_get (HTTPRequest.headers request) (lit "Connection")
       = Some (lit "keep-alive"))
  /\ (dict_get (HTTPRequest.headers request) (lit "Connection")
      <> Some (lit "keep-alive") ->
      serve_requests (S rounds) os self c = Some (r, c2)
      /\ handle_exit r c2 = (r, emit Close c2)).
Proof.
  intros G F.
  assert (K : HTTPRequest.is_connection_keep_alive request = true
              <-> dict_get (HTTPRequest.headers request) (lit "Connection")
                  = Some (lit "keep-alive")).
  { unfold HTTPRequest.is_connection_keep_alive, dict_mem.
    destruct (dict_get _ _) as [v|]; simpl.
    - rewrite eqb_eq. split; congruence.
    - split; discriminate. }
  split; [exact K|]. intros Hne. split.
  - simpl. rewrite G, F.
    destruct (HTTPRequest.is_connection_keep_alive request) eqn:E.
    + exfalso. apply Hne. now apply K.
    + now destruct r as [[]|e].
  - exact (serve_file_exit _ _ _ _ F).
Qed.



Variables (docroot : str) (config : dict str).
Let self := serve docroot config.

(** C4: for a request that resolves to a file under the docroot prefix,
    the 200 response carries [Content-Length] equal to the size of the file,
    and the body sent after it is the file; dispatch returns when the number
    of octets sent equals that size, and otherwise raises an assertion error
    that ends the session: the loop stops and the connection is closed. *)
Theorem content_length_matches_body (rounds : nat)
  (c0 c : HTTPConnectionHandler.t) (request : HTTPRequest.t)
  (n : nat) (m : str) (content : bytes) :
  let abs := resolved os docroot config request in
  let response := ok_200 (Os.guess_type os abs) n m in
  let failure := Raise (AssertionError (lit "Incomplete file sent.")) in
  startswith abs (Posixpath.abspath (Os.cwd os) docroot) = true ->
  dict_get (Os.fs os) abs = Some (Os.File n m content) ->
  get_request c0 = (Return (Some request), c) ->
  exists r c',
    serve_file os self request c = (r, c')
    /\ outgoing (connection c')
       = outgoing (connection c) ++ [SendAll (text_of response); SendFile content]
    /\ option_map (fun hs => dict_get hs (lit "Content-Length"))
         (HTTPResponse.headers response) = Some (Some (VInt n))
    /\ text_of response
       = lit "HTTP/1.1 200 OK" ++ HTTPResponse.CRLF
         ++ lit "Server: Too-simple-http-server" ++ HTTPResponse.CRLF
         ++ lit "Content-Type: "
         ++ format (match Os.guess_type os abs with
                    | Some t => VStr t
                    | None => VNone
                    end)
         ++ HTTPResponse.CRLF
         ++ lit "Content-Length: " ++ of_nat n ++ HTTPResponse.CRLF
         ++ lit "Last-Modified: " ++ m ++ HTTPResponse.CRLF ++ HTTPResponse.CRLF
    /\ (length content = n -> r = Return tt)
    /\ (length content <> n ->
        r = failure
        /\ serve_requests (S rounds) os self c0 = Some (failure, c')
        /\ handle_exit failure c' = (failure, emit Close c')).
Proof.
  intros abs response failure Hpre Hfile G.
  destruct (serve_file os self request c) as [r c'] eqn:F.
  exists r, c'. split; [reflexivity|].
  pose proof F as F'. unfold self in F'. rewrite serve_file_unfold in F'.
  cbv zeta in F'. fold abs in F'. rewrite Hpre in F'. cbn [negb] in F'.
  unfold Os.exists_, dict_mem in F'. rewrite Hfile in F'. cbn [negb] in F'.
  injection F' as <- <-.
  split; [simpl; now rewrite <- app_assoc|].
  split; [reflexivity|].
  split; [apply text_of_ok_200|].
  split.
  - intros ->. now rewrite Nat.eqb_refl.
  - intros Hne. apply Nat.eqb_neq in Hne. rewrite Hne in *.
    split; [reflexivity|]. split; [|reflexivity].
    simpl. now rewrite G, F.
Qed.

(** C10: when the MIME table has no guess for the file served, the 200
    response still has a [Content-Type] line, and its value is the text
    None; [Content-Length] and [Last-Modified] carry the size and the
    modification time as for any other file. *)
Theorem content_type_none_is_written
  (c : HTTPConnectionHandler.t) (request : HTTPRequest.t)
  (n : nat) (m : str) (content : bytes) :
  let abs := resolved os docroot config request in
  startswith abs (Posixpath.abspath (Os.cwd os) docroot) = true ->
  dict_get (Os.fs os) abs = Some (Os.File n m content) ->
  Os.guess_type os abs = None ->
  exists r c',
    serve_file os self request c = (r, c')
    /\ outgoing (connection c')
       = outgoing (connection c)
         ++ [ SendAll (lit "HTTP/1.1 200 OK" ++ HTTPResponse.CRLF
                       ++ lit "Server: Too-simple-http-server" ++ HTTPResponse.CRLF
                       ++ lit "Content-Type: None" ++ HTTPResponse.CRLF
                       ++ lit "Content-Length: " ++ of_nat n ++ HTTPResponse.CRLF
                       ++ lit "Last-Modified: " ++ m ++ HTTPResponse.CRLF
                       ++ HTTPResponse.CRLF);
              SendFile content ].
Proof.
  intros abs Hpre Hfile Hmime.
  destruct (serve_file os self request c) as [r c'] eqn:F.
  exists r, c'. split; [reflexivity|].
  unfold self in F. rewrite serve_file_unfold in F.
  cbv zeta in F. fold abs in F. rewrite Hpre in F. cbn [negb] in F.
  unfold Os.exists_, dict_mem in F. rewrite Hfile in F. cbn [negb] in F.
  injection F as <- <-. rewrite Hmime, text_of_ok_200.
  simpl outgoing. rewrite <- app_assoc. reflexivity.
Qed.

(** The prefix test of dispatch: a resolved path that does not start with
    the resolved docroot gets the 400 response and no file is sent. *)
Lemma serve_file_outside_prefix
  (c : HTTPConnectionHandler.t) (request : HTTPRequest.t) :
  startswith (resolved os docroot config request)
             (Posixpath.abspath (Os.cwd os) docroot) = false ->
  exists r,
    serve_file os self request c
    = (r, emit (SendAll (text_of HTTPResponse.client_error_400)) c).
Proof.
  intros H. unfold self. rewrite serve_file_unfold. cbv zeta. rewrite H.
  cbn [negb]. eexists; reflexivity.
Qed.

End Session.

(** Every path the prefix test turns away lies outside the docroot tree. *)
Lemma outside_prefix_is_outside (root p : str) :
  startswith p root = false -> Spec.inside root p = false.
Proof.
  intros H. unfold Spec.inside. apply orb_false_iff. split.
  - apply eqb_neq. intros ->.
    rewrite <- (app_nil_r root) in H at 1. now rewrite startswith_app in H.
  - destruct (startswith p (if endswith root Posixpath.sep then root
                            else root ++ Posixpath.sep)) eqn:E; [|reflexivity].
    apply startswith_iff in E as [r E].
    destruct (endswith root Posixpath.sep).
    + subst p. now rewrite startswith_app in H.
    + subst p. rewrite <- app_assoc in H. now rewrite startswith_app in H.
Qed.

(** ** Scenarios *)

Section Scenarios.
Import HTTPConnectionHandler HTTPServer Spec Examples.

(** C1: a target with ../ that resolves into a sibling directory whose name
    continues the name of the docroot passes the prefix test: the answer is
    200 and the file outside the docroot is sent. *)
Theorem sibling_directory_is_served :
  let request := request "/../www2/secret.txt" host in
  contains (HTTPRequest.path request) (lit "../") = true
  /\ Posixpath.abspath (Os.cwd disk) (lit "www") = lit "/srv/www"
  /\ resolved disk (lit "www") [] request = lit "/srv/www2/secret.txt"
  /\ inside (lit "/srv/www") (lit "/srv/www2/secret.txt") = false
  /\ parse_request (lit ("GET /../www2/secret.txt HTTP/1.1" ++ crlf ++ "Host: x"))
     = Return request
  /\ serve_file disk plain request (state [] [] [])
     = (Return tt,
        state [] [ SendAll (text_of (ok_200 (Some (lit "text/plain")) 6 stamp));
                   SendFile (octets "secret") ] [])
  /\ handle_tcp_connection disk plain
       (client [Chunk (get "/../www2/secret.txt" no_more)])
     = Some (Return tt,
             state [] [ SendAll (text_of (ok_200 (Some (lit "text/plain")) 6 stamp));
                        SendFile (octets "secret");
                        Close ] []).
Proof. vm_compute. repeat split. Qed.

(** C2: with a 404 page configured, a request for a missing file gets the
    404 headers and then dispatch raises on the missing [send_body]: the
    page is never sent.  A request for a directory gets 200 headers. *)
Theorem custom_404_page_is_not_sent :
  dict_get (serve_config custom_pages) (lit "404") = Some (lit "404.html")
  /\ dict_get (Os.fs disk) (lit "/srv/www/404.html")
     = Some (Os.File 9 stamp (octets "not found"))
  /\ resolved disk (lit "www") (serve_config custom_pages)
       (request "/missing.txt" host) = lit "/srv/www/missing.txt"
  /\ Os.exists_ disk (lit "/srv/www/missing.txt") = false
  /\ handle_tcp_connection disk custom_pages (client [Chunk (get "/missing.txt" no_more)])
     = Some (Raise (AttributeError (lit "send_body")),
             state [] [ SendAll (text_of HTTPResponse.not_found_404); Close ] [])
  /\ handle_tcp_connection disk plain (client [Chunk (get "/img" no_more)])
     = Some (Raise IsADirectoryError,
             state [] [ SendAll (text_of (ok_200 None 4096 stamp)); Close ] []).
Proof. vm_compute. repeat split. Qed.

(** C5: a request whose octets decode in one read is lost when a read
    boundary falls inside a character: the first [recv] fails to decode, no
    frame is produced and the session ends without an answer. *)
Theorem split_character_breaks_framing :
  get_request (init (client [Chunk (cafe_head ++ cafe_tail)]))
  = (Return (Some {| HTTPRequest.command := lit "GET";
                     HTTPRequest.path := lit "/caf" ++ [233%N];
                     HTTPRequest.headers := host |}),
     state [] [] [])
  /\ get_request (init (client [Chunk cafe_head; Chunk cafe_tail]))
     = (Raise UnicodeDecodeError, state [Chunk cafe_tail] [] [])
  /\ handle_tcp_connection disk plain (client [Chunk cafe_head; Chunk cafe_tail])
     = Some (Raise UnicodeDecodeError, state [Chunk cafe_tail] [Close] []).
Proof. vm_compute. repeat split. Qed.


(** Two requests on one connection, the first with keep-alive: two
    responses, then the connection is closed. *)
Example two_requests_one_connection :
  handle_tcp_connection disk plain
    (client [Chunk (get "/" keep_alive); Chunk (get "/data" no_more)])
  = Some (Return tt,
          state [] [ SendAll (text_of (ok_200 (Some (lit "text/html")) 5 stamp));
                     SendFile (octets "hello");
                     SendAll (text_of (ok_200 None 2 stamp));
                     SendFile (octets "xy");
                     Close ] []).
Proof. vm_compute. reflexivity. Qed.

(** Without the header, the second request is never read. *)
Example one_request_then_close :
  handle_tcp_connection disk plain
    (client [Chunk (get "/" no_more); Chunk (get "/data" no_more)])
  = Some (Return tt,
          state [Chunk (get "/data" no_more)]
                [ SendAll (text_of (ok_200 (Some (lit "text/html")) 5 stamp));
                  SendFile (octets "hello");
                  Close ] []).
Proof. vm_compute. reflexivity. Qed.

(** One complete request and the start of the next, already buffered. *)
Lemma get_request_cuts_at_first_terminator_witness :
  let buffer := lit ("GET / HTTP/1.1" ++ crlf ++ "Host: x" ++ crlf ++ crlf
                     ++ "GET /next") in
  contains buffer END_OF_REQUEST = true
  /\ exists frame rest,
       buffer = frame ++ END_OF_REQUEST ++ rest
       /\ find buffer END_OF_REQUEST = Some (length frame)
       /\ (forall j, j < length frame ->
             startswith (skipn j buffer) END_OF_REQUEST = false)
       /\ get_request (state [] [] buffer) =
            (match parse_request frame with
             | Return r => Return (Some r)
             | Raise e => Raise e
             end,
             state [] [] rest).
Proof.
  split; [reflexivity|].
  apply (@get_request_cuts_at_first_terminator (state [] [] _)). reflexivity.
Defined.

Lemma parse_request_accepts_exactly_witness :
  let frame := lit ("GET /a HTTP/1.1" ++ crlf ++ "Host: x" ++ crlf ++ "Host: y") in
  request_well_formed frame
  /\ exists request,
       parse_request frame = Return request
       /\ dict_get (HTTPRequest.headers request) (lit "Host") = Some (lit "y").
Proof.
  intros frame.
  destruct (parse_request_accepts_exactly frame) as (Hiff & _ & Hreq).
  assert (Hp : exists request, parse_request frame = Return request)
    by (eexists; reflexivity).
  split; [exact (proj1 Hiff Hp)|].
  destruct Hp as [request Hp]. exists request. split; [exact Hp|].
  destruct (Hreq request Hp) as (target & _ & _ & _ & Hget).
  rewrite Hget. reflexivity.
Defined.

(** A client that stalls in the middle of a request line, and one that
    sends nothing at all. *)
Lemma read_timeout_answer_witness :
  handle_tcp_connection disk plain (client [Chunk (octets "GET / HT"); Stall])
  = Some (Return tt,
          state []
            [ SendAll (lit ("HTTP/1.1 400 Bad Request" ++ crlf
                            ++ "Server: Too-simple-http-server" ++ crlf
                            ++ "Connection: close" ++ crlf ++ crlf));
              Close ]
            (lit "GET / HT"))
  /\ handle_tcp_connection disk plain (client [Stall])
     = Some (Return tt, state [] [Close] []).
Proof.
  destruct (read_timeout_answer disk plain) as (_ & _ & H).
  split.
  - apply (H [octets "GET / HT"] [] []);
      [ apply Forall_cons;
          [eexists; split; [vm_compute; reflexivity | discriminate]
          | apply Forall_nil]
      | reflexivity
      | discriminate ].
  - apply (H [] [] []); [apply Forall_nil | reflexivity | reflexivity].
Defined.

(** [Keep-Alive] with capitals is not [keep-alive]. *)
Lemma keep_alive_is_exact_match_witness :
  let headers := [ (lit "Connection", lit "Keep-Alive"); (lit "Host", lit "x") ] in
  let script := [ Chunk (get "/" ("Connection: Keep-Alive" ++ crlf));
                  Chunk (get "/data" no_more) ] in
  let sent := [ SendAll (text_of (ok_200 (Some (lit "text/html")) 5 stamp));
                SendFile (octets "hello") ] in
  HTTPRequest.is_connection_keep_alive (request "/" headers) = false
  /\ serve_requests 3 disk plain (init (client script))
     = Some (Return tt, state [Chunk (get "/data" no_more)] sent [])
  /\ handle_exit (Return tt) (state [Chunk (get "/data" no_more)] sent [])
     = (Return tt, state [Chunk (get "/data" no_more)] (sent ++ [Close]) []).
Proof.
  intros headers script sent.
  destruct (@keep_alive_is_exact_match disk plain 2
              (init (client script)) (state [Chunk (get "/data" no_more)] [] [])
              (state [Chunk (get "/data" no_more)] sent [])
              (request "/" headers) (Return tt) eq_refl eq_refl) as [Hiff Hclose].
  split; [reflexivity|].
  apply Hclose. discriminate.
Defined.


Lemma content_length_matches_body_witness :
  let c0 := init (client [Chunk (get "/" no_more)]) in
  let response := ok_200 (Some (lit "text/html")) 5 stamp in
  exists r c',
    serve_file disk plain (request "/" host) (state [] [] []) = (r, c')
    /\ outgoing (connection c') = [SendAll (text_of response); SendFile (octets "hello")]
    /\ (length (octets "hello") = 5 -> r = Return tt).
Proof.
  intros c0 response.
  destruct (@content_length_matches_body disk (lit "www") [] 1 c0 (state [] [] [])
              (request "/" host) 5 stamp (octets "hello")
              eq_refl eq_refl eq_refl)
    as (r & c' & F & Hout & _ & _ & Hok & _).
  exists r, c'. repeat split; assumption.
Defined.

Lemma content_type_none_is_written_witness :
  exists r c',
    serve_file disk plain (request "/data" host) (state [] [] []) = (r, c')
    /\ outgoing (connection c')
       = [ SendAll (lit ("HTTP/1.1 200 OK" ++ crlf
                         ++ "Server: Too-simple-http-server" ++ crlf
                         ++ "Content-Type: None" ++ crlf
                         ++ "Content-Length: 2" ++ crlf
                         ++ "Last-Modified: Mon, 02 Nov 26 10:00:00 " ++ crlf
                         ++ crlf));
           SendFile (octets "xy") ].
Proof.
  apply (@content_type_none_is_written disk (lit "www") [] (state [] [] [])
           (request "/data" host) 2 stamp (octets "xy")); reflexivity.
Defined.

End Scenarios.

(* ================================================================== *)
(** * Further properties of the code *)

(** ** How a session ends *)

Section SessionEnds.
Import HTTPConnectionHandler HTTPServer Spec.

Variable os : Os.t.

Lemma serve_file_emits (self : HTTPServer.t) (request : HTTPRequest.t)
  (c c' : HTTPConnectionHandler.t) r :
  serve_file os self request c = (r, c') ->
  exists evs,
    outgoing (connection c') = outgoing (connection c) ++ evs
    /\ Forall (fun e => e <> Close) evs.
Proof.
  destruct self as [[docroot|] config].
  - change {| serve_docroot := Some docroot; serve_config := config |}
      with (serve docroot config).
    intros F. destruct (serve_file_one_response _ _ _ _ _ F) as (text & body & E & B).
    exists (SendAll text :: body). split; [exact E|].
    constructor; [discriminate|].
    eapply Forall_impl; [|exact B]. intros [ | | ]; simpl; intros H; try contradiction.
    discriminate.
  - intros [= _ <-]. exists []. split; [now rewrite app_nil_r | constructor].
Qed.

Lemma serve_requests_emits (self : HTTPServer.t) (rounds : nat) :
  forall c r c',
    serve_requests rounds os self c = Some (r, c') ->
    exists evs,
      outgoing (connection c') = outgoing (connection c) ++ evs
      /\ Forall (fun e => e <> Close) evs.
Proof.
  induction rounds as [|rounds IH]; intros c r c'; simpl; [discriminate|].
  destruct (get_request c) as [[[request|]|e] c1] eqn:G;
    pose proof (get_request_outgoing _ G) as O.
  - destruct (serve_file os self request c1) as [[u|e] c2] eqn:F;
      destruct (serve_file_emits _ _ _ F) as (evs & E & N).
    + destruct (negb _).
      * intros [= <- <-]. exists evs. now rewrite E, O.
      * intros H. apply IH in H as (evs' & E' & N').
        exists (evs ++ evs'). rewrite E', E, O, app_assoc. split; [reflexivity|].
        now apply Forall_app.
    + intros [= <- <-]. exists evs. now rewrite E, O.
  - intros [= <- <-]. exists []. rewrite O, app_nil_r. split; [reflexivity | constructor].
  - intros [= <- <-]. exists []. rewrite O, app_nil_r. split; [reflexivity | constructor].
Qed.

Lemma handle_exit_emits (r : outcome unit) (c : HTTPConnectionHandler.t) :
  exists evs,
    outgoing (connection (snd (handle_exit r c)))
    = outgoing (connection c) ++ evs ++ [Close]
    /\ Forall (fun e => e <> Close) evs.
Proof.
  destruct r as [u|e].
  - exists []. split; [reflexivity | constructor].
  - destruct e; try (exists []; split; [reflexivity | constructor]).
    + eexists [_]. split; [simpl; rewrite <- app_assoc; reflexivity|].
      repeat constructor. discriminate.
    + unfold handle_exit. destruct (0 <? length (unprocessed_data c)).
      * eexists [_]. split; [simpl; rewrite <- app_assoc; reflexivity|].
        repeat constructor. discriminate.
      * exists []. split; [reflexivity | constructor].
Qed.

(** X1: when a session has ended, what it has written ends with the one
    and only [Close]: the connection is closed exactly once, however the
    loop was left (normally, by an error the handler catches, or by one it
    does not). *)
Theorem session_closes_once (self : HTTPServer.t) (sock : socket)
  (r : outcome unit) (c : HTTPConnectionHandler.t) :
  ~ In Close (outgoing sock) ->
  handle_tcp_connection os self sock = Some (r, c) ->
  exists sent,
    outgoing (connection c) = sent ++ [Close]
    /\ ~ In Close sent.
Proof.
  intros Hno. unfold handle_tcp_connection.
  destruct (serve_requests _ os self (init sock)) as [[r1 c1]|] eqn:H;
    [|discriminate].
  destruct (serve_requests_emits _ _ _ H) as (evs & E & N).
  destruct (handle_exit_emits r1 c1) as (evs' & E' & N').
  intros [= X]. rewrite X in E'. simpl in E'.
  exists (outgoing sock ++ evs ++ evs'). split.
  - rewrite E', E. simpl. now rewrite <- !app_assoc.
  - rewrite !in_app_iff. rewrite Forall_forall in N, N'.
    intros [H1|[H1|H1]]; [auto | now apply (N Close) | now apply (N' Close)].
Qed.

End SessionEnds.

(** ** The first frame of a connection *)

Section FirstFrame.
Import HTTPConnectionHandler HTTPServer Spec.

Variable os : Os.t.
Variable self : HTTPServer.t.

Lemma handle_tcp_connection_first (sock : socket) (r : outcome unit)
  (incoming' : list recv_result) (buf' : str) :
  detect_request (incoming sock) [] =
  (match r with Return _ => Return None | Raise e => Raise e end, incoming', buf') ->
  handle_tcp_connection os self sock =
  Some (handle_exit r {| connection := {| incoming := incoming';
                                          outgoing := outgoing sock |};
                         unprocessed_data := buf' |}).
Proof.
  intros D. unfold handle_tcp_connection. simpl serve_requests.
  unfold get_request, detect_request_from_socket. simpl incoming at 1.
  simpl unprocessed_data at 1. rewrite D.
  destruct r as [[]|e]; reflexivity.
Qed.

(** X2: when the first frame on a connection is one the parser rejects, the
    session answers with exactly one response, the 400 text given here in
    full, and closes; it reads no further than the reads that brought the
    frame, and whatever followed the frame is left unanswered. *)
Theorem rejected_first_frame (reads : list bytes) (later : list recv_result)
  (sent : list event) (frame rest : str) (e : exn) :
  Forall readable reads ->
  cut_request (decoded reads) = Some (frame, rest) ->
  parse_request frame = Raise e ->
  exists k rest',
    handle_tcp_connection os self
      {| incoming := map Chunk reads ++ later; outgoing := sent |}
    = Some (Return tt,
            {| connection :=
                 {| incoming := map Chunk (skipn k reads) ++ later;
                    outgoing :=
                      sent ++ [ SendAll (lit "HTTP/1.1 400 Bad Request"
                                         ++ HTTPResponse.CRLF
                                         ++ lit "Server: Too-simple-http-server"
                                         ++ HTTPResponse.CRLF
                                         ++ lit "Connection: close"
                                         ++ HTTPResponse.CRLF ++ HTTPResponse.CRLF);
                                Close ] |};
               unprocessed_data := rest' |})
    /\ rest' ++ decoded (skipn k reads) = rest.
Proof.
  intros R C P.
  destruct (detect_request_chunks later R [] C) as (k & rest' & D & E).
  rewrite P in D. destruct (parse_request_raises _ P) as [msg ->].
  exists k, rest'. split; [|exact E].
  rewrite (@handle_tcp_connection_first {| incoming := _; outgoing := sent |}
             (Raise (BadRequestError msg)) _ _ D).
  unfold handle_exit, send_response, close, emit. simpl.
  now rewrite <- app_assoc.
Qed.

(** X3: when the peer closes before a terminator has arrived, the session
    closes without writing anything, whether or not part of a request was
    received; the partial text is dropped. *)
Theorem peer_close_gets_no_answer (reads : list bytes) (sent : list event) :
  Forall readable reads ->
  cut_request (decoded reads) = None ->
  handle_tcp_connection os self {| incoming := map Chunk reads; outgoing := sent |}
  = Some (Return tt,
          {| connection := {| incoming := []; outgoing := sent ++ [Close] |};
             unprocessed_data := decoded reads |}).
Proof.
  intros R C.
  pose proof (detect_request_chunks_none [] R [] C) as D.
  rewrite app_nil_r in D. rewrite (detect_request_unfold [] _) in D.
  simpl app in D. rewrite C in D.
  now rewrite (@handle_tcp_connection_first {| incoming := _; outgoing := sent |}
                 (Return tt) _ _ D).
Qed.

(** X4: a read whose octets are not UTF-8 on their own ends the session
    with the decoding error: the connection is closed and no response, not
    even a 400, is written. *)
Theorem undecodable_read_gets_no_answer (reads : list bytes) (raw : bytes)
  (later : list recv_result) (sent : list event) :
  Forall readable reads ->
  cut_request (decoded reads) = None ->
  decode raw = None ->
  handle_tcp_connection os self
    {| incoming := map Chunk reads ++ Chunk raw :: later; outgoing := sent |}
  = Some (Raise UnicodeDecodeError,
          {| connection := {| incoming := later; outgoing := sent ++ [Close] |};
             unprocessed_data := decoded reads |}).
Proof.
  intros R C U.
  pose proof (detect_request_chunks_none (Chunk raw :: later) R [] C) as D.
  rewrite (detect_request_unfold (Chunk raw :: later) _) in D.
  simpl app in D. rewrite C, U in D.
  now rewrite (@handle_tcp_connection_first {| incoming := _; outgoing := sent |}
                 (Raise UnicodeDecodeError) _ _ D).
Qed.

(** X7: the framer never gives up on a complete request: when a call ends
    without cutting a frame (the peer closed, a read timed out or did not
    decode), the text left in the buffer holds no terminator. *)
Theorem framer_leaves_no_complete_frame (c c' : HTTPConnectionHandler.t)
  (r : outcome (option HTTPRequest.t)) :
  get_request c = (r, c') ->
  r = Return None \/ r = Raise RecvTimeoutError \/ r = Raise UnicodeDecodeError ->
  contains (unprocessed_data c') END_OF_REQUEST = false.
Proof.
  unfold get_request, detect_request_from_socket.
  destruct (detect_request _ _) as [[r0 inc'] buf'] eqn:D.
  intros [= <- <-] Hr. simpl. revert D.
  generalize (unprocessed_data c). generalize (incoming (connection c)).
  intros incoming. induction incoming as [|[raw|] incoming IH]; intros buf;
    rewrite detect_request_unfold; unfold cut_request at 1;
    destruct (find buf END_OF_REQUEST) as [i|] eqn:F.
  1,3,5: destruct (parse_request _) as [q|e] eqn:P; intros [= <- _ _];
    [ destruct Hr as [Hr|[Hr|Hr]]; discriminate
    | apply parse_request_raises in P as [msg ->];
      destruct Hr as [Hr|[Hr|Hr]]; discriminate ].
  - intros [= _ _ <-]. unfold contains. now rewrite F.
  - destruct (decode raw) as [[|ch data]|].
    + intros [= _ _ <-]. unfold contains. now rewrite F.
    + apply IH.
    + intros [= _ _ <-]. unfold contains. now rewrite F.
  - intros [= _ _ <-]. unfold contains. now rewrite F.
Qed.

End FirstFrame.

(** ** What dispatch sends and when the loop goes on *)

Section DispatchFacts.
Import HTTPConnectionHandler HTTPServer Spec.

Variable os : Os.t.
Variables (docroot : str) (config : dict str).

Lemma serve_file_sends_under_prefix (request : HTTPRequest.t)
  (c c' : HTTPConnectionHandler.t) r (data : bytes) :
  serve_file os (serve docroot config) request c = (r, c') ->
  In (SendFile data) (outgoing (connection c')) ->
  In (SendFile data) (outgoing (connection c)) \/ under_prefix os docroot data.
Proof.
  rewrite serve_file_unfold. cbv zeta.
  destruct (startswith _ _) eqn:Hpre; cbn [negb].
  2: { intros [= _ <-]. simpl. rewrite in_app_iff.
       intros [H|[H|[]]]; [now left | discriminate]. }
  unfold Os.exists_, dict_mem.
  destruct (dict_get (Os.fs os) _) as [[n m content|n m]|] eqn:Hfile; cbn [negb];
    intros [= _ <-]; simpl; rewrite ?in_app_iff; simpl.
  - intros [[H|[H|[]]]|[H|[]]]; [now left | discriminate |].
    injection H as <-. right. now exists (resolved os docroot config request), n, m.
  - intros [H|[H|[]]]; [now left | discriminate].
  - intros [H|[H|[]]]; [now left | discriminate].
Qed.

Lemma serve_requests_sends_under_prefix (rounds : nat) (data : bytes) :
  forall c r c',
    serve_requests rounds os (serve docroot config) c = Some (r, c') ->
    In (SendFile data) (outgoing (connection c')) ->
    In (SendFile data) (outgoing (connection c)) \/ under_prefix os docroot data.
Proof.
  induction rounds as [|rounds IH]; intros c r c'; simpl; [discriminate|].
  destruct (get_request c) as [[[request|]|e] c1] eqn:G;
    pose proof (get_request_outgoing _ G) as O;
    try (intros [= _ <-]; rewrite O; now left).
  destruct (serve_file os (serve docroot config) request c1) as [[u|e] c2] eqn:F.
  - destruct (negb _).
    + intros [= _ <-] H. rewrite <- O. eapply serve_file_sends_under_prefix; eauto.
    + intros H1 H2. destruct (IH _ _ _ H1 H2) as [H|H]; [|now right].
      rewrite <- O. eapply serve_file_sends_under_prefix; eauto.
  - intros [= _ <-] H. rewrite <- O. eapply serve_file_sends_under_prefix; eauto.
Qed.

Lemma handle_exit_sends_no_file (r : outcome unit) (c : HTTPConnectionHandler.t)
  (data : bytes) :
  In (SendFile data) (outgoing (connection (snd (handle_exit r c)))) ->
  In (SendFile data) (outgoing (connection c)).
Proof.
  unfold handle_exit.
  destruct r as [u|[ | | | | | | | ]]; try destruct (0 <? _); simpl;
    rewrite ?in_app_iff; simpl; intuition discriminate.
Qed.

(** X5: over a whole session, every file body written to the client is
    the content of a file whose absolute path starts with the resolved
    docroot; nothing else is ever streamed. *)
Theorem session_sends_only_under_prefix (sock : socket) r
  (c : HTTPConnectionHandler.t) (data : bytes) :
  handle_tcp_connection os (serve docroot config) sock = Some (r, c) ->
  In (SendFile data) (outgoing (connection c)) ->
  In (SendFile data) (outgoing sock) \/ under_prefix os docroot data.
Proof.
  unfold handle_tcp_connection.
  destruct (serve_requests _ os _ (init sock)) as [[r1 c1]|] eqn:S1; [|discriminate].
  intros [= X] H.
  assert (H1 : In (SendFile data) (outgoing (connection c1))).
  { apply (@handle_exit_sends_no_file r1). now rewrite X. }
  exact (serve_requests_sends_under_prefix _ _ _ S1 H1).
Qed.

(** Dispatch looks at a request only through the path it resolves to. *)
Lemma serve_file_by_resolved (request request' : HTTPRequest.t)
  (c : HTTPConnectionHandler.t) :
  resolved os docroot config request = resolved os docroot config request' ->
  serve_file os (serve docroot config) request c
  = serve_file os (serve docroot config) request' c.
Proof. intros E. rewrite !serve_file_unfold. cbv zeta. now rewrite E. Qed.

(** X8: a request for "/" is dispatched exactly as a request for the index
    path, which is "/index.html" when the configuration has no index entry
    and "/" followed by the configured name otherwise. *)
Theorem root_is_served_as_index (request : HTTPRequest.t)
  (c : HTTPConnectionHandler.t) :
  HTTPRequest.path request = lit "/" ->
  serve_file os (serve docroot config) request c
  = serve_file os (serve docroot config)
      {| HTTPRequest.command := HTTPRequest.command request;
         HTTPRequest.path := get_index_html_path (serve docroot config);
         HTTPRequest.headers := HTTPRequest.headers request |} c
  /\ (dict_get config (lit "index") = None ->
      get_index_html_path (serve docroot config) = lit "/index.html")
  /\ (forall name, dict_get config (lit "index") = Some name ->
      startswith name (lit "/") = false ->
      get_index_html_path (serve docroot config) = lit "/" ++ name).
Proof.
  intros Hp. split; [|split].
  - apply serve_file_by_resolved. unfold resolved. rewrite Hp. simpl HTTPRequest.path.
    change (eqb (lit "/") (lit "/")) with true. cbv iota.
    now destruct (eqb (get_index_html_path (serve docroot config)) (lit "/")).
  - intros E. unfold get_index_html_path. simpl serve_config. now rewrite E.
  - intros name E Hs. unfold get_index_html_path. simpl serve_config. rewrite E.
    unfold Posixpath.join2. change Posixpath.sep with (lit "/"). now rewrite Hs.
Qed.

(** X14: the leading slash of a target is optional: a non-empty target
    that does not start with "/" is dispatched exactly as the same target
    with "/" in front. *)
Theorem leading_slash_is_optional (request : HTTPRequest.t)
  (c : HTTPConnectionHandler.t) :
  HTTPRequest.path request <> [] ->
  startswith (HTTPRequest.path request) (lit "/") = false ->
  serve_file os (serve docroot config) request c
  = serve_file os (serve docroot config)
      {| HTTPRequest.command := HTTPRequest.command request;
         HTTPRequest.path := lit "/" ++ HTTPRequest.path request;
         HTTPRequest.headers := HTTPRequest.headers request |} c.
Proof.
  intros Hne Hs. apply serve_file_by_resolved. unfold resolved.
  simpl HTTPRequest.path. destruct (HTTPRequest.path request) as [|ch p] eqn:E;
    [contradiction|].
  assert (H1 : eqb (ch :: p) (lit "/") = false).
  { apply eqb_neq. intros H. rewrite H in Hs. discriminate. }
  rewrite H1. cbv iota. change (eqb (lit "/" ++ ch :: p) (lit "/")) with false.
  rewrite Hs. reflexivity.
Qed.

(** X9: an error response does not end a keep-alive connection.  When the
    request says keep-alive and dispatch answers 400 (prefix test failed) or
    404 (nothing at the path) with no custom page configured, the loop goes
    on to the next frame, although the response just written carries
    [Connection: close]. *)
Theorem error_response_keeps_connection (rounds : nat)
  (c c1 : HTTPConnectionHandler.t) (request : HTTPRequest.t) :
  let abs := resolved os docroot config request in
  let root := Posixpath.abspath (Os.cwd os) docroot in
  get_request c = (Return (Some request), c1) ->
  HTTPRequest.is_connection_keep_alive request = true ->
  (startswith abs root = false -> dict_mem config (lit "400") = false ->
   serve_requests (S rounds) os (serve docroot config) c
   = serve_requests rounds os (serve docroot config)
       (emit (SendAll (text_of HTTPResponse.client_error_400)) c1))
  /\ (startswith abs root = true -> Os.exists_ os abs = false ->
      dict_mem config (lit "404") = false ->
      serve_requests (S rounds) os (serve docroot config) c
      = serve_requests rounds os (serve docroot config)
          (emit (SendAll (text_of HTTPResponse.not_found_404)) c1))
  /\ contains (text_of HTTPResponse.client_error_400)
        (HTTPResponse.CRLF ++ lit "Connection: close" ++ HTTPResponse.CRLF) = true
  /\ contains (text_of HTTPResponse.not_found_404)
        (HTTPResponse.CRLF ++ lit "Connection: close" ++ HTTPResponse.CRLF) = true.
Proof.
  intros abs root G K. split; [|split; [|split; reflexivity]].
  - intros Hpre H400. simpl. rewrite G, serve_file_unfold. cbv zeta.
    fold abs root. rewrite Hpre, H400, K. reflexivity.
  - intros Hpre Hex H404. simpl. rewrite G, serve_file_unfold. cbv zeta.
    fold abs root. rewrite Hpre, Hex, H404, K. reflexivity.
Qed.

End DispatchFacts.

(** ** The wire text of a response *)

Section ResponseText.
Import Spec.

Lemma find_after_free (c0 : N) (sep' p rest : str) :
  ~ In c0 p ->
  find (p ++ (c0 :: sep') ++ rest) (c0 :: sep') = Some (length p).
Proof.
  induction p as [|ch p IH]; intros H.
  - change ([] ++ (c0 :: sep') ++ rest) with ((c0 :: sep') ++ rest).
    rewrite find_unfold. now rewrite startswith_app.
  - change ((ch :: p) ++ (c0 :: sep') ++ rest)
      with (ch :: p ++ (c0 :: sep') ++ rest). rewrite find_unfold.
    destruct (startswith _ _) eqn:E.
    + simpl in E. apply andb_true_iff in E as [E _]. apply N.eqb_eq in E.
      exfalso. apply H. now left.
    + rewrite IH by (intros Hin; apply H; now right). reflexivity.
Qed.

Lemma find_free_none (c0 : N) (sep' p : str) :
  ~ In c0 p -> find p (c0 :: sep') = None.
Proof.
  induction p as [|ch p IH]; intros H; rewrite find_unfold.
  - reflexivity.
  - destruct (startswith _ _) eqn:E.
    + simpl in E. apply andb_true_iff in E as [E _]. apply N.eqb_eq in E.
      exfalso. apply H. now left.
    + rewrite IH by (intros Hin; apply H; now right). reflexivity.
Qed.

Lemma split_no_sep (s sep : str) : find s sep = None -> split s sep = [s].
Proof.
  unfold split. intros H. destruct (length s); simpl; [reflexivity|].
  now rewrite H.
Qed.

Lemma split_rounds_S (n : nat) (s sep : str) :
  split_rounds (S n) s sep =
  match find s sep with
  | None => [s]
  | Some i => firstn i s :: split_rounds n (skipn (i + length sep) s) sep
  end.
Proof. reflexivity. Qed.

Lemma split_free_cons (c0 : N) (sep' p rest : str) :
  ~ In c0 p ->
  split (p ++ (c0 :: sep') ++ rest) (c0 :: sep')
  = p :: split rest (c0 :: sep').
Proof.
  intros H. unfold split.
  destruct (length (p ++ (c0 :: sep') ++ rest)) as [|n] eqn:L.
  { rewrite !length_app in L. simpl in L. lia. }
  rewrite split_rounds_S, find_after_free by exact H. f_equal.
  - rewrite firstn_app, Nat.sub_diag, firstn_all. simpl. apply app_nil_r.
  - rewrite app_assoc, skipn_app.
    rewrite <- !length_app, skipn_all, Nat.sub_diag. simpl.
    rewrite !length_app in L. simpl in L.
    apply split_rounds_enough; unfold str, char in *; [discriminate | lia | lia].
Qed.

Lemma split_join_free (c0 : N) (sep' : str) (parts : list str) :
  parts <> [] -> Forall (fun p => ~ In c0 p) parts ->
  split (join (c0 :: sep') parts) (c0 :: sep') = parts.
Proof.
  induction parts as [|p parts IH]; [contradiction|]. intros _ H.
  inversion H as [|? ? Hp Hrest]; subst.
  destruct parts as [|q parts].
  - simpl. apply split_no_sep. now apply find_free_none.
  - change (join (c0 :: sep') (p :: q :: parts))
      with (p ++ (c0 :: sep') ++ join (c0 :: sep') (q :: parts)).
    rewrite split_free_cons by assumption.
    rewrite IH by (assumption || discriminate). reflexivity.
Qed.

Lemma join_blank_tail (sep : str) (parts : list str) :
  parts <> [] ->
  join sep parts ++ sep ++ sep = join sep (parts ++ [[]; []]).
Proof.
  induction parts as [|p parts IH]; [contradiction|]. intros _.
  destruct parts as [|q parts].
  - simpl. now rewrite app_nil_r.
  - change (join sep (p :: q :: parts)) with (p ++ sep ++ join sep (q :: parts)).
    change ((p :: q :: parts) ++ [[]; []]) with (p :: (q :: parts) ++ [[]; []]).
    change (join sep (p :: (q :: parts) ++ [[]; []]))
      with (p ++ sep ++ join sep ((q :: parts) ++ [[]; []])).
    rewrite <- IH by discriminate. now rewrite <- !app_assoc.
Qed.

Lemma Return_inj (A : Type) (a b : A) : Return a = Return b -> a = b.
Proof. congruence. Qed.

(** X11: a response formats exactly when its code is 200, 400 or 404 and
    it has a header dict; any other code raises KeyError, whatever the
    headers are. *)
Theorem formatted_string_known_codes (response : HTTPResponse.t) :
  ((exists text, HTTPResponse.formatted_string response = Return text)
   <-> (In (HTTPResponse.code response) [200; 400; 404]
        /\ HTTPResponse.headers response <> None))
  /\ (~ In (HTTPResponse.code response) [200; 400; 404] ->
      HTTPResponse.formatted_string response = Raise KeyError).
Proof.
  destruct response as [code headers]. unfold HTTPResponse.formatted_string.
  simpl HTTPResponse.code. simpl HTTPResponse.headers.
  unfold HTTPResponse.CODE_DESCRIPTION, HTTPResponse.description.
  destruct (Nat.eq_dec code 200) as [->|N1];
    [|destruct (Nat.eq_dec code 400) as [->|N2];
      [|destruct (Nat.eq_dec code 404) as [->|N3]]].
  1,2,3: destruct headers as [hs|]; (split; [split|]);
    [ intros _; split; [simpl; tauto | discriminate]
    | intros _; eexists; reflexivity
    | intros H; exfalso; apply H; simpl; tauto
    | intros [text H]; discriminate
    | intros [_ H]; contradiction
    | intros H; exfalso; apply H; simpl; tauto ].
  rewrite (proj2 (Nat.eqb_neq 200 code)), (proj2 (Nat.eqb_neq 400 code)),
    (proj2 (Nat.eqb_neq 404 code)) by congruence.
  split; [split|].
  - intros [text H]; discriminate.
  - intros [[H|[H|[H|[]]]] _]; congruence.
  - reflexivity.
Qed.

(** X10: the text of a response reads back line by line.  When no header
    key or formatted value holds a carriage return, cutting the text at
    CRLF gives the status line with the code and its description, the
    Server line, one line per header in the order of the dict, and the two
    empty pieces of the closing blank line. *)
Theorem formatted_string_lines (code : nat) (hs : dict value) (text : str) :
  Forall (fun kv => cr_free (fst kv) /\ cr_free (format (snd kv))) hs ->
  HTTPResponse.formatted_string
    {| HTTPResponse.code := code; HTTPResponse.headers := Some hs |}
  = Return text ->
  exists d,
    HTTPResponse.description HTTPResponse.CODE_DESCRIPTION code = Return d
    /\ split text HTTPResponse.CRLF
       = (lit "HTTP/1.1 " ++ of_nat code ++ lit " " ++ d)
         :: lit "Server: Too-simple-http-server"
         :: map HTTPResponse.header_line hs ++ [[]; []].
Proof.
  intros Hfree. unfold HTTPResponse.formatted_string.
  simpl HTTPResponse.code. simpl HTTPResponse.headers.
  destruct (HTTPResponse.description _ code) as [d|e] eqn:D; [|discriminate].
  intros E. apply Return_inj in E. subst text. exists d. split; [reflexivity|].
  rewrite join_blank_tail by discriminate.
  change HTTPResponse.CRLF with (13%N :: [10%N]).
  apply split_join_free; [discriminate|].
  assert (Hstatus : ~ In 13%N (lit "HTTP/1.1 " ++ of_nat code ++ lit " " ++ d)).
  { revert D. unfold HTTPResponse.CODE_DESCRIPTION, HTTPResponse.description.
    destruct (Nat.eq_dec code 200) as [->|N1];
      [|destruct (Nat.eq_dec code 400) as [->|N2];
        [|destruct (Nat.eq_dec code 404) as [->|N3]]].
    1,2,3: intros [= <-]; vm_compute; intuition discriminate.
    rewrite (proj2 (Nat.eqb_neq 200 code)), (proj2 (Nat.eqb_neq 400 code)),
      (proj2 (Nat.eqb_neq 404 code)) by congruence. discriminate. }
  simpl app. constructor; [exact Hstatus|].
  constructor; [vm_compute; intuition discriminate|].
  apply Forall_app. split.
  - apply Forall_map. eapply Forall_impl; [|exact Hfree].
    intros [k v] [Hk Hv]. unfold HTTPResponse.header_line. simpl fst. simpl snd.
    rewrite !in_app_iff. intros [H|[H|H]]; [now apply Hk | | now apply Hv].
    revert H. vm_compute. intuition discriminate.
  - repeat constructor; intros [].
Qed.

(** X15: a header line of a response splits back into its key and its
    formatted value under the cut the request parser uses, provided the key
    holds no colon and the value no colon followed by a space. *)
Theorem header_line_splits_back (k : str) (v : value) :
  colon_free k ->
  find (format v) (lit ": ") = None ->
  split (HTTPResponse.header_line (k, v)) (lit ": ") = [k; format v].
Proof.
  intros Hk Hv. unfold HTTPResponse.header_line. simpl fst. simpl snd.
  change (lit ": ") with (58%N :: [32%N]).
  rewrite split_free_cons by exact Hk.
  now rewrite split_no_sep.
Qed.

End ResponseText.

(** ** What the parser reports *)

Section ParserErrors.
Import HTTPConnectionHandler Spec.

Lemma parse_headers_first_bad (good : list str) (bad : str) (rest : list str) :
  Forall key_value_line good -> ~ key_value_line bad ->
  forall acc,
    parse_headers (good ++ bad :: rest) acc
    = Raise (BadRequestError (lit "Malformed key-value header: " ++ bad)).
Proof.
  intros Hgood Hbad. induction Hgood as [|line good (k & v & E) _ IH]; intros acc.
  - simpl.
    destruct (split bad (lit ": ")) as [|k [|v [|x xs]]] eqn:E; try reflexivity.
    exfalso. apply Hbad. now exists k, v.
  - simpl. rewrite E. apply IH.
Qed.

(** X12: among the header lines of a frame with a valid request line, the
    first one that is not a key and a value around ": " is the one the
    error names; the lines after it are not looked at. *)
Theorem parse_request_names_first_bad_header
  (frame headline target bad : str) (good rest : list str) :
  split frame CRLF = headline :: good ++ bad :: rest ->
  split headline (lit " ") = [lit "GET"; target; lit "HTTP/1.1"] ->
  Forall key_value_line good ->
  ~ key_value_line bad ->
  parse_request frame
  = Raise (BadRequestError (lit "Malformed key-value header: " ++ bad)).
Proof.
  intros Hlines Hhead Hgood Hbad. unfold parse_request.
  rewrite Hlines. simpl hd. simpl tl. rewrite Hhead.
  change (eqb (lit "GET") (lit "GET")) with true.
  change (eqb (lit "HTTP/1.1") (lit "HTTP/1.1")) with true. cbn [negb].
  now rewrite parse_headers_first_bad.
Qed.

(** X16: a frame with a valid request line and only key/value lines, none
    of them with the key Host, is rejected with the message that names the
    missing header. *)
Theorem parse_request_requires_host
  (frame headline target : str) (lines : list str) :
  split frame CRLF = headline :: lines ->
  split headline (lit " ") = [lit "GET"; target; lit "HTTP/1.1"] ->
  Forall key_value_line lines ->
  last_header_value lines (lit "Host") = None ->
  parse_request frame = Raise (BadRequestError (lit "Required headers: Host")).
Proof.
  intros Hlines Hhead Hall Hhost. unfold parse_request.
  rewrite Hlines. simpl hd. simpl tl. rewrite Hhead.
  change (eqb (lit "GET") (lit "GET")) with true.
  change (eqb (lit "HTTP/1.1") (lit "HTTP/1.1")) with true. cbn [negb].
  destruct (parse_headers_spec lines []) as (P1 & P2 & _).
  destruct (P1 Hall) as [hs Hhs]. rewrite Hhs.
  destruct (P2 hs Hhs) as [_ Hget].
  assert (Hm : dict_mem hs (lit "Host") = false).
  { unfold dict_mem. rewrite Hget, Hhost. reflexivity. }
  unfold required_keys. cbn [filter]. rewrite Hm. reflexivity.
Qed.

End ParserErrors.

(** ** Binding the listening socket *)

Section Binding.
Import TCPServer.

Lemma try_addresses_no_leak (addresses : list candidate) :
  forall i s s' log,
    try_addresses i addresses s = (s', log) ->
    forall j, In (Opened j) log -> s' = Socket j \/ In (Closed j) log.
Proof.
  induction addresses as [|[ | | ] addresses IH]; intros i s s' log; simpl.
  - intros [= <- <-] j [].
  - apply IH.
  - destruct (try_addresses (S i) addresses IsNone) as [s1 log1] eqn:E.
    intros [= <- <-] j [H|[H|H]]; try discriminate.
    + injection H as <-. right. simpl. auto.
    + destruct (IH _ _ _ _ E j H) as [H'|H']; [now left | right; simpl; auto].
  - intros [= <- <-] j [H|[]]. injection H as <-. now left.
Qed.

Lemma try_addresses_usable (before after : list candidate) :
  ~ In Usable before ->
  forall i s,
    fst (try_addresses i (before ++ Usable :: after) s)
    = Socket (i + length before).
Proof.
  induction before as [|[ | | ] before IH]; intros H i s; simpl.
  - now rewrite Nat.add_0_r.
  - rewrite IH by (intros Hin; apply H; now right). f_equal. lia.
  - specialize (IH (fun Hin => H (or_intror Hin)) (S i) IsNone).
    destruct (try_addresses _ _ _) as [s1 log1]. simpl in *. rewrite IH.
    f_equal. lia.
  - exfalso. apply H. now left.
Qed.

Lemma try_addresses_unusable (addresses : list candidate) :
  ~ In Usable addresses ->
  forall i s,
    fst (try_addresses i addresses s)
    = match addresses with [] => s | _ :: _ => IsNone end.
Proof.
  induction addresses as [|[ | | ] addresses IH]; intros H i s; simpl.
  - reflexivity.
  - rewrite IH by (intros Hin; apply H; now right). now destruct addresses.
  - specialize (IH (fun Hin => H (or_intror Hin)) (S i) IsNone).
    destruct (try_addresses _ _ _) as [s1 log1]. simpl in *. rewrite IH.
    now destruct addresses.
  - exfalso. apply H. now left.
Qed.

(** X13: the listening socket is the one of the first address on which
    the socket can be made, bound and listened on; when no address of a
    non-empty list is usable the process exits with status 1. *)
Theorem first_usable_address_is_bound :
  (forall before after,
     ~ In Usable before ->
     fst (find_socket_to_bind_and_listen (before ++ Usable :: after))
     = Listening (length before))
  /\ (forall addresses,
        addresses <> [] -> ~ In Usable addresses ->
        fst (find_socket_to_bind_and_listen addresses) = SystemExit 1).
Proof.
  unfold find_socket_to_bind_and_listen. split.
  - intros before after H.
    pose proof (@try_addresses_usable before after H 0 Unbound) as E.
    destruct (try_addresses _ _ _) as [s log]. simpl in *. now rewrite E.
  - intros addresses Hne H.
    pose proof (@try_addresses_unusable addresses H 0 Unbound) as E.
    destruct (try_addresses _ _ _) as [s log]. simpl in *. rewrite E.
    destruct addresses; [contradiction | reflexivity].
Qed.

(** X17: no socket is leaked while looking for an address: every socket
    the loop opened is either the one it returns or has been closed. *)
Theorem bind_loop_closes_what_it_drops (addresses : list candidate) (j : nat) :
  In (Opened j) (snd (find_socket_to_bind_and_listen addresses)) ->
  fst (find_socket_to_bind_and_listen addresses) = Listening j
  \/ In (Closed j) (snd (find_socket_to_bind_and_listen addresses)).
Proof.
  unfold find_socket_to_bind_and_listen.
  destruct (try_addresses 0 addresses Unbound) as [s log] eqn:E. simpl.
  intros H. destruct (@try_addresses_no_leak addresses 0 Unbound s log E j H) as [->|H']; auto.
Qed.

End Binding.

(** ** Reading on demand *)

Section Reading.
Import HTTPConnectionHandler HTTPServer Spec.

Lemma cut_request_split (buf frame rest : str) :
  cut_request buf = Some (frame, rest) -> buf = frame ++ END_OF_REQUEST ++ rest.
Proof.
  unfold cut_request. destruct (find buf END_OF_REQUEST) as [i|] eqn:E; [|discriminate].
  intros [= <- <-]. now destruct (find_Some _ _ E) as (H & _ & _).
Qed.

Lemma decoded_cons (raw : bytes) (data : str) (reads : list bytes) :
  decode raw = Some data -> decoded (raw :: reads) = data ++ decoded reads.
Proof. intros D. unfold decoded. simpl. now rewrite D. Qed.

Lemma detect_request_lazy (reads : list bytes) (later : list recv_result) :
  Forall readable reads ->
  forall buf frame rest,
    cut_request (buf ++ decoded reads) = Some (frame, rest) ->
    exists k rest',
      detect_request (map Chunk reads ++ later) buf
      = (match parse_request frame with
         | Return r => Return (Some r)
         | Raise e => Raise e
         end, map Chunk (skipn k reads) ++ later, rest')
      /\ buf ++ decoded (firstn k reads) = frame ++ END_OF_REQUEST ++ rest'
      /\ forall j, j < k -> cut_request (buf ++ decoded (firstn j reads)) = None.
Proof.
  induction 1 as [|raw reads (data & D & Hne) _ IH]; intros buf frame rest H.
  - change (decoded []) with (@nil char) in H. rewrite app_nil_r in H.
    exists 0, rest. simpl. rewrite detect_request_unfold, H.
    split; [reflexivity|]. split; [|intros j Hj; lia].
    change (decoded []) with (@nil char). rewrite app_nil_r.
    now apply cut_request_split.
  - simpl map. simpl app. rewrite detect_request_unfold.
    destruct (cut_request buf) as [[frame' rest']|] eqn:C.
    + pose proof (@cut_request_app buf (decoded (raw :: reads)) frame' rest' C) as C'.
      rewrite C' in H. injection H as <- <-.
      exists 0, rest'. split; [reflexivity|]. split; [|intros j Hj; lia].
      change (decoded (firstn 0 (raw :: reads))) with (@nil char).
      rewrite app_nil_r. now apply cut_request_split.
    + rewrite D. destruct data as [|ch data]; [contradiction|].
      rewrite (@decoded_cons raw (ch :: data) reads D), app_assoc in H.
      apply IH in H as (k & rest' & H1 & H2 & H3).
      exists (S k), rest'. split; [exact H1|]. split.
      * simpl firstn. rewrite (@decoded_cons raw (ch :: data) _ D), app_assoc. exact H2.
      * intros [|j] Hj.
        -- change (decoded (firstn 0 (raw :: reads))) with (@nil char).
           now rewrite app_nil_r.
        -- simpl firstn. rewrite (@decoded_cons raw (ch :: data) _ D), app_assoc.
           apply H3. lia.
Qed.

(** X18: the framer reads on demand.  A call consumes reads only until the
    buffer holds a terminator: with fewer reads there was none, the text
    buffered and read is the frame, the terminator and what stays buffered,
    and the reads not needed are still to come, so a request sent ahead of
    time waits its turn. *)
Theorem framer_reads_only_what_it_needs (reads : list bytes)
  (later : list recv_result) (sent : list event) (buf frame rest : str) :
  Forall readable reads ->
  cut_request (buf ++ decoded reads) = Some (frame, rest) ->
  exists k rest',
    get_request {| connection := {| incoming := map Chunk reads ++ later;
                                    outgoing := sent |};
                   unprocessed_data := buf |}
    = (match parse_request frame with
       | Return r => Return (Some r)
       | Raise e => Raise e
       end,
       {| connection := {| incoming := map Chunk (skipn k reads) ++ later;
                           outgoing := sent |};
          unprocessed_data := rest' |})
    /\ buf ++ decoded (firstn k reads) = frame ++ END_OF_REQUEST ++ rest'
    /\ forall j, j < k -> cut_request (buf ++ decoded (firstn j reads)) = None.
Proof.
  intros R C.
  destruct (@detect_request_lazy reads later R buf frame rest C)
    as (k & rest' & D & E & L).
  exists k, rest'. split; [|split; assumption].
  unfold get_request, detect_request_from_socket. simpl. now rewrite D.
Qed.

End Reading.

(** ** Instances *)

Section Instances.
Import HTTPConnectionHandler HTTPServer Spec Examples.

Ltac readable_reads :=
  repeat (apply Forall_cons;
          [eexists; split; [vm_compute; reflexivity | discriminate]|]);
  apply Forall_nil.

Lemma session_closes_once_witness :
  exists sent,
    [ SendAll (text_of (ok_200 (Some (lit "text/html")) 5 stamp));
      SendFile (octets "hello"); Close ] = sent ++ [Close]
    /\ ~ In Close sent.
Proof.
  apply (@session_closes_once disk plain (client [Chunk (get "/" no_more)])
           (Return tt)
           (state [] [ SendAll (text_of (ok_200 (Some (lit "text/html")) 5 stamp));
                       SendFile (octets "hello"); Close ] []));
    [intros [] | vm_compute; reflexivity].
Defined.

Lemma rejected_first_frame_witness :
  parse_request (lit ("GET /x HTTP/1.0" ++ crlf ++ "Host: x"))
  = Raise (BadRequestError (lit "Only HTTP/1 is supported: HTTP/1.0"))
  /\ exists k rest',
       handle_tcp_connection disk plain (client [Chunk old_version])
       = Some (Return tt,
               state (map Chunk (skipn k [old_version]) ++ [])
                     ([] ++ [ SendAll (lit ("HTTP/1.1 400 Bad Request" ++ crlf
                                            ++ "Server: Too-simple-http-server" ++ crlf
                                            ++ "Connection: close" ++ crlf ++ crlf));
                              Close ])
                     rest')
       /\ rest' ++ decoded (skipn k [old_version]) = [].
Proof.
  split; [reflexivity|].
  apply (@rejected_first_frame disk plain [old_version] [] []
           (lit ("GET /x HTTP/1.0" ++ crlf ++ "Host: x")) []
           (BadRequestError (lit "Only HTTP/1 is supported: HTTP/1.0")));
    [readable_reads | reflexivity | reflexivity].
Defined.

Lemma peer_close_gets_no_answer_witness :
  handle_tcp_connection disk plain (client [Chunk (octets "GET / HT")])
  = Some (Return tt, state [] [Close] (lit "GET / HT")).
Proof.
  apply (@peer_close_gets_no_answer disk plain [octets "GET / HT"] []);
    [readable_reads | reflexivity].
Defined.

Lemma undecodable_read_gets_no_answer_witness :
  decode cafe_head = None
  /\ handle_tcp_connection disk plain
       (client [Chunk (octets "GET "); Chunk cafe_head; Chunk cafe_tail])
     = Some (Raise UnicodeDecodeError, state [Chunk cafe_tail] [Close] (lit "GET ")).
Proof.
  split; [reflexivity|].
  apply (@undecodable_read_gets_no_answer disk plain [octets "GET "] cafe_head
           [Chunk cafe_tail] []);
    [readable_reads | reflexivity | reflexivity].
Defined.

Lemma session_sends_only_under_prefix_witness :
  In (SendFile (octets "hello")) (outgoing (client [Chunk (get "/" no_more)]))
  \/ under_prefix disk (lit "www") (octets "hello").
Proof.
  apply (@session_sends_only_under_prefix disk (lit "www") []
           (client [Chunk (get "/" no_more)]) (Return tt)
           (state [] [ SendAll (text_of (ok_200 (Some (lit "text/html")) 5 stamp));
                       SendFile (octets "hello"); Close ] [])
           (octets "hello"));
    [vm_compute; reflexivity | simpl; auto].
Defined.

Lemma framing_ignores_read_boundaries_witness :
  let whole := get "/" no_more in
  let cut := [firstn 18 whole; skipn 18 whole] in
  exists r k k' b b',
    detect_request (map Chunk cut) [] = (r, map Chunk (skipn k cut), b)
    /\ detect_request (map Chunk [whole]) [] = (r, map Chunk (skipn k' [whole]), b')
    /\ b ++ decoded (skipn k cut) = b' ++ decoded (skipn k' [whole]).
Proof.
  intros whole cut.
  apply (@framing_ignores_read_boundaries cut [whole] []);
    [readable_reads | readable_reads | vm_compute; reflexivity].
Defined.

Lemma framer_leaves_no_complete_frame_witness :
  contains (lit "GET / HT") END_OF_REQUEST = false.
Proof.
  apply (@framer_leaves_no_complete_frame
           (state [Chunk (octets "GET / HT"); Stall] [] [])
           (state [] [] (lit "GET / HT")) (Raise RecvTimeoutError));
    [reflexivity | right; left; reflexivity].
Defined.

Lemma root_is_served_as_index_witness :
  serve_file disk plain (request "/" host) (state [] [] [])
  = serve_file disk plain (request "/index.html" host) (state [] [] []).
Proof.
  apply (@root_is_served_as_index disk (lit "www") [] (request "/" host)
           (state [] [] [])). reflexivity.
Defined.

Lemma leading_slash_is_optional_witness :
  serve_file disk plain (request "index.html" host) (state [] [] [])
  = serve_file disk plain (request "/index.html" host) (state [] [] []).
Proof.
  apply (@leading_slash_is_optional disk (lit "www") [] (request "index.html" host)
           (state [] [] [])); [discriminate | reflexivity].
Defined.

Lemma error_response_keeps_connection_witness :
  let c := init (client [ Chunk (get "/missing.txt" keep_alive);
                          Chunk (get "/" no_more) ]) in
  let c1 := state [Chunk (get "/" no_more)] [] [] in
  serve_requests 3 disk plain c
  = serve_requests 2 disk plain
      (emit (SendAll (text_of HTTPResponse.not_found_404)) c1).
Proof.
  intros c c1.
  apply (@error_response_keeps_connection disk (lit "www") [] 2 c c1
           (request "/missing.txt" host_keep_alive));
    reflexivity.
Defined.

Lemma formatted_string_lines_witness :
  exists d,
    HTTPResponse.description HTTPResponse.CODE_DESCRIPTION 404 = Return d
    /\ split (text_of HTTPResponse.not_found_404) HTTPResponse.CRLF
       = (lit "HTTP/1.1 " ++ of_nat 404 ++ lit " " ++ d)
         :: lit "Server: Too-simple-http-server"
         :: map HTTPResponse.header_line [ (lit "Connection", VStr (lit "close")) ]
            ++ [[]; []].
Proof.
  apply (@formatted_string_lines 404 [ (lit "Connection", VStr (lit "close")) ]);
    [|reflexivity].
  repeat constructor; vm_compute; intuition discriminate.
Defined.

Lemma header_line_splits_back_witness :
  split (HTTPResponse.header_line (lit "Last-Modified", VStr stamp)) (lit ": ")
  = [lit "Last-Modified"; stamp].
Proof.
  apply (@header_line_splits_back (lit "Last-Modified") (VStr stamp));
    [vm_compute; intuition discriminate | reflexivity].
Defined.

Lemma parse_request_names_first_bad_header_witness :
  parse_request (lit ("GET / HTTP/1.1" ++ crlf ++ "Host: x" ++ crlf ++ "broken"
                      ++ crlf ++ "also broken"))
  = Raise (BadRequestError (lit "Malformed key-value header: broken")).
Proof.
  apply (@parse_request_names_first_bad_header _ (lit "GET / HTTP/1.1") (lit "/")
           (lit "broken") [lit "Host: x"] [lit "also broken"]).
  - reflexivity.
  - reflexivity.
  - repeat constructor. exists (lit "Host"), (lit "x"). reflexivity.
  - intros (k & v & E). vm_compute in E. discriminate.
Defined.

Lemma parse_request_requires_host_witness :
  parse_request (lit ("GET / HTTP/1.1" ++ crlf ++ "Accept: */*"))
  = Raise (BadRequestError (lit "Required headers: Host")).
Proof.
  apply (@parse_request_requires_host _ (lit "GET / HTTP/1.1") (lit "/")
           [lit "Accept: */*"]).
  - reflexivity.
  - reflexivity.
  - repeat constructor. exists (lit "Accept"), (lit "*/*"). reflexivity.
  - reflexivity.
Defined.

Lemma bind_loop_closes_what_it_drops_witness :
  let addresses := [TCPServer.NoSocket; TCPServer.NoBind; TCPServer.Usable;
                    TCPServer.NoBind] in
  fst (TCPServer.find_socket_to_bind_and_listen addresses) = TCPServer.Listening 1
  \/ In (TCPServer.Closed 1) (snd (TCPServer.find_socket_to_bind_and_listen addresses)).
Proof.
  intros addresses.
  apply (@bind_loop_closes_what_it_drops addresses 1). simpl. auto.
Defined.

Lemma framer_reads_only_what_it_needs_witness :
  exists k rest',
    get_request (state (map Chunk three_reads ++ []) [] [])
    = (match parse_request (lit ("GET / HTTP/1.1" ++ crlf ++ "Host: x")) with
       | Return r => Return (Some r)
       | Raise e => Raise e
       end,
       state (map Chunk (skipn k three_reads) ++ []) [] rest')
    /\ [] ++ decoded (firstn k three_reads)
       = lit ("GET / HTTP/1.1" ++ crlf ++ "Host: x") ++ END_OF_REQUEST ++ rest'
    /\ forall j, j < k -> cut_request ([] ++ decoded (firstn j three_reads)) = None.
Proof.
  apply (@framer_reads_only_what_it_needs three_reads [] [] []
           (lit ("GET / HTTP/1.1" ++ crlf ++ "Host: x")) (lit "GET /next more"));
    [readable_reads | reflexivity].
Defined.

End Instances.
